(** * ObbSegValidator: matching and statistics of the OBB + segmentation validator

  A shallow embedding of [ultralytics/models/yolo/obb_seg/val.py].

  Tensors are lists: a 2-D float tensor is a list of rows, a stack of
  masks is a list of [H x W] rasters together with its spatial shape (so
  that an empty stack still has a resolution).  Float entries are
  rationals; the numeric collaborators that really need floating point
  (probabilistic IoU, bilinear interpolation, mask decoding, box
  rescaling) are fields of a record of collaborators.  An operation that
  raises in Python returns [None]. *)

From Stdlib Require Import QArith.
From stdpp Require Import gmap strings list.

Local Open Scope nat_scope.

(** ** Tensors *)

Module Tensor.

Abbreviation Row := (list Q).
Abbreviation Tensor2 := (list (list Q)).
Abbreviation Plane := (list (list Q)).

(** A stack of masks of shape [(len, H, W)]; [mask_hw] is [shape[1:]]. *)
Record Masks := { mask_hw : nat * nat; planes : list Plane }.

(** A boolean matrix of shape [(len brows, ncols)]. *)
Record BoolMatrix := { ncols : nat; brows : list (list bool) }.

(** [torch.zeros(n, m, dtype=torch.bool)] *)
Definition zeros (n m : nat) : BoolMatrix :=
  {| ncols := m; brows := replicate n (replicate m false) |}.

(** [t[:, :k]] *)
Definition cols_to (k : nat) (t : Tensor2) : Tensor2 := take k <$> t.

(** [t[:, -1:]] *)
Definition last_col (t : Tensor2) : Tensor2 :=
  (fun r => drop (length r - 1) r) <$> t.

(** [t[:, a:-1]] *)
Definition cols_from_to_last (a : nat) (t : Tensor2) : Tensor2 :=
  (fun r => drop a (take (length r - 1) r)) <$> t.

(** [torch.cat([a, b], dim=1)] for tensors with the same number of rows *)
Definition cat1 (a b : Tensor2) : Tensor2 := zip_with app a b.

(** [t[:, k]]: raises [IndexError] when the tensor has no column [k]. *)
Definition col (k : nat) (t : Tensor2) : option (list Q) :=
  mapM (fun r : Row => r !! k) t.

(** [t[:, k] = x]: in-place column assignment, [IndexError] without
    column [k]. *)
Definition set_col (k : nat) (x : Q) (t : Tensor2) : option Tensor2 :=
  mapM (fun r : Row => if decide (k < length r) then Some (<[k:=x]> r) else None) t.

(** [m.view(m.shape[0], -1)] of a stack that has elements, as the stacks
    that [update_metrics] passes on have; on a stack without elements torch
    raises. *)
Definition view_flat (m : Masks) : Tensor2 := (fun p : Plane => concat p) <$> planes m.

(** [m.repeat(n, 1, 1)] *)
Definition repeat0 (n : nat) (m : Masks) : Masks :=
  {| mask_hw := mask_hw m; planes := concat (replicate n (planes m)) |}.

(** [m.gt_(c)]: 1.0 where the entry is strictly greater than [c]. *)
Definition gt_ (c : Q) (m : Masks) : Masks :=
  {| mask_hw := mask_hw m;
     planes := fmap (M:=list) (fmap (M:=list) (fmap (M:=list)
                 (fun x : Q => if Qlt_le_dec c x then 1%Q else 0%Q))) (planes m) |}.

(** One raster of [torch.where(p == i, 1.0, 0.0)]. *)
Definition plane_eq (i : nat) (p : Plane) : Plane :=
  fmap (M:=list) (fmap (M:=list)
    (fun x : Q => if Qeq_bool x (inject_Z (Z.of_nat i)) then 1%Q else 0%Q)) p.

(** [torch.where(m == index, 1.0, 0.0)] with
    [index = torch.arange(nl).view(nl, 1, 1) + 1]: the first dimensions
    [len m] and [nl] broadcast when they are equal or one of them is 1,
    and the comparison raises otherwise. *)
Definition where_eq_index (nl : nat) (m : Masks) : option Masks :=
  let k := length (planes m) in
  if decide (k = nl) then
    Some {| mask_hw := mask_hw m; planes := imap (fun j p => plane_eq (S j) p) (planes m) |}
  else if decide (nl = 1) then
    Some {| mask_hw := mask_hw m; planes := plane_eq 1 <$> planes m |}
  else
    match planes m with
    | [p] => Some {| mask_hw := mask_hw m; planes := (fun j => plane_eq (S j) p) <$> seq 0 nl |}
    | _ => None
    end.

End Tensor.
Import Tensor.

(** ** Geometry kernel *)

(** The numeric collaborators of [ultralytics.utils.metrics] and
  [torch.nn.functional] used by the matching step. *)
Record Geometry := {
(** axis-aligned IoU, imported by the module *)
box_iou : Tensor2 -> Tensor2 -> list (list Q);
(** rotated-box probabilistic IoU, [M x N] *)
batch_probiou : Tensor2 -> Tensor2 -> list (list Q);
(** [F.interpolate(m[None], size, mode="bilinear", align_corners=False)[0]] *)
interpolate_bilinear : list Plane -> nat * nat -> list Plane
}.

Module MaskIoU.

Definition area (a : list Q) : Q := foldr Qplus 0%Q a.

(** One entry of the matrix product [A . B^T]. *)
Definition intersection (a b : list Q) : Q := foldr Qplus 0%Q (zip_with Qmult a b).

(** Modelled from the spec: [mask_iou] of [ultralytics.utils.metrics] is
    not part of the validator module.  Section 4.1: the masks are
    flattened, the intersection is the matrix product, the IoU is
    [inter / (area(A) + area(B) - inter)], and [0/0] is [0]. *)
Definition mask_iou (m1 m2 : Tensor2) : list (list Q) :=
  (fun a => (fun b =>
     let i := intersection a b in
     let u := (area a + area b - i)%Q in
     if Qeq_bool u 0 then 0%Q else (i / u)%Q) <$> m2) <$> m1.

End MaskIoU.
Import MaskIoU.

(** ** Matcher *)

Module Matcher.

(** Step 1: entries whose predicted class differs from the ground-truth
    class are zeroed.  Row [g] of [S] belongs to ground truth [g]. *)
Definition gate (pred_classes true_classes : list Q) (S : list (list Q)) : list (list Q) :=
  zip_with (fun tc row =>
              zip_with (fun pc s => if Qeq_bool pc tc then s else 0%Q) pred_classes row)
           true_classes S.

(** The entries [(g, p, s)] of the matrix with [t <= s]. *)
Definition candidates (t : Q) (S : list (list Q)) : list (nat * nat * Q) :=
  concat (imap (fun g row =>
                  omap (fun ps : nat * Q => if Qle_bool t ps.2 then Some (g, ps.1, ps.2) else None)
                       (imap (fun p s => (p, s)) row)) S).

Fixpoint insert_desc (c : nat * nat * Q) (l : list (nat * nat * Q)) : list (nat * nat * Q) :=
  match l with
  | [] => [c]
  | d :: l' => if Qle_bool c.2 d.2 then d :: insert_desc c l' else c :: l
  end.

(** Best overlap first. *)
Definition sort_desc (l : list (nat * nat * Q)) : list (nat * nat * Q) :=
  foldr insert_desc [] l.

(** Step 2: the best pair is taken and both of its indices are removed
    from consideration; [used] holds the pairs already taken. *)
Fixpoint assign (used : list (nat * nat)) (l : list (nat * nat * Q)) : list (nat * nat) :=
  match l with
  | [] => used
  | (g, p, _) :: l' =>
      if bool_decide (g ∈ used.*1) || bool_decide (p ∈ used.*2)
      then assign used l'
      else assign ((g, p) :: used) l'
  end.

Definition matched (t : Q) (S : list (list Q)) : list nat :=
  (assign [] (sort_desc (candidates t S))).*2.

(** Modelled from the spec: [match_predictions] is inherited from the
    base validator, which is not part of the validator module.  Section
    4.2: class gating, then per threshold a greedy one-to-one assignment
    by best overlap; the output has one row per prediction and one
    column per threshold. *)
Definition match_predictions (iouv : list Q) (pred_classes true_classes : list Q)
    (iou : list (list Q)) : BoolMatrix :=
  let S := gate pred_classes true_classes iou in
  {| ncols := length iouv;
     brows := (fun i => (fun t => bool_decide (i ∈ matched t S)) <$> iouv)
                <$> seq 0 (length pred_classes) |}.

End Matcher.
Import Matcher.

(** ** Correct-prediction matrix of one sample *)

Section ProcessBatch.

Context (G : Geometry) (iouv : list Q).

(** [_process_batch(detections, gt_bboxes, gt_cls, pred_masks=None,
    gt_masks=None, overlap=False, masks=False)] *)
Definition _process_batch (detections gt_bboxes : Tensor2) (gt_cls : list Q)
    (pred_masks gt_masks : option Masks) (overlap masks : bool) : option BoolMatrix :=
  iou ←
    (if masks then
       gt_masks ← gt_masks;
       pred_masks ← pred_masks;
       gt_masks ←
         (if overlap then
            let nl := length gt_cls in
            where_eq_index nl (repeat0 nl gt_masks)
          else Some gt_masks);
       let gt_masks :=
         if decide (mask_hw gt_masks = mask_hw pred_masks) then gt_masks
         else gt_ (1 # 2)
                {| mask_hw := mask_hw pred_masks;
                   planes := interpolate_bilinear G (planes gt_masks) (mask_hw pred_masks) |} in
       Some (mask_iou (view_flat gt_masks) (view_flat pred_masks))
     else
       Some (batch_probiou G gt_bboxes (cat1 (cols_to 4 detections) (last_col detections))));
  cls ← col 5 detections;
  Some (match_predictions iouv cls gt_cls iou).

End ProcessBatch.

(** ** Validator state *)

Abbreviation Proto := (list (list (list Q))).

(** [((ratio_h, ratio_w), (pad_w, pad_h))] *)
Definition RatioPad := ((Q * Q) * (Q * Q))%type.

(** The fields of [self.args] that the validator reads. *)
Record Args := {
  save_json : bool;
  save_txt : bool;
  save_conf : bool;
  single_cls : bool;
  overlap_mask : bool;
  plots : bool
}.

(** The two functions [self.process] can be bound to. *)
Inductive MaskDecoder := ProcessMaskNative | ProcessMaskObbSeg.

(** The collaborators of [ultralytics.utils.ops] and of the export
    boundary. *)
Record Ops := {
  (** one row of [ops.scale_boxes(img1_shape, boxes, img0_shape,
      ratio_pad=ratio_pad, xywh=True)], which works in place on the first
      four columns *)
  scale_box : nat * nat -> nat * nat -> RatioPad -> Q * Q * Q * Q -> Q * Q * Q * Q;
  (** [ops.process_mask_native(protos, masks_in, bboxes, shape)] *)
  process_mask_native : Proto -> Tensor2 -> Tensor2 -> nat * nat -> Masks;
  (** [ops.process_mask_obb_seg(protos, masks_in, bboxes, shape)] *)
  process_mask_obb_seg : Proto -> Tensor2 -> Tensor2 -> nat * nat -> Masks;
  (** [torch.as_tensor(m, dtype=torch.uint8)] *)
  as_uint8 : Masks -> Masks;
  (** [ops.scale_image(m.permute(1, 2, 0)..., ori_shape, ratio_pad=...)] *)
  scale_image : Masks -> nat * nat -> RatioPad -> Masks;
  (** the entries [pred_to_json] appends to [self.jdict] when the export
      goes through *)
  pred_to_json : Tensor2 -> string -> Masks -> list string
}.

(** The per-sample dictionary [stat]. *)
Record Stat := {
  stat_conf : list Q;
  stat_pred_cls : list Q;
  stat_tp : BoolMatrix;
  stat_tp_m : BoolMatrix;
  stat_target_cls : list Q;
  stat_target_img : list Q
}.

(** [self.stats]: one list per key. *)
Record Stats := {
  tp_m : list BoolMatrix;
  tp : list BoolMatrix;
  conf : list (list Q);
  pred_cls : list (list Q);
  target_cls : list (list Q);
  target_img : list (list Q)
}.

(** [dict(tp_m=[], tp=[], conf=[], pred_cls=[], target_cls=[], target_img=[])] *)
Definition empty_stats : Stats :=
  {| tp_m := []; tp := []; conf := []; pred_cls := []; target_cls := []; target_img := [] |}.

(** [for k in self.stats.keys(): self.stats[k].append(stat[k])] *)
Definition append_stat (s : Stat) (a : Stats) : Stats :=
  {| tp_m := tp_m a ++ [stat_tp_m s];
     tp := tp a ++ [stat_tp s];
     conf := conf a ++ [stat_conf s];
     pred_cls := pred_cls a ++ [stat_pred_cls s];
     target_cls := target_cls a ++ [stat_target_cls s];
     target_img := target_img a ++ [stat_target_img s] |}.

(** Calls whose only effect is outside the validator. *)
Inductive Event :=
| CheckRequirements (req : string)
| ConfusionProcessBatch (detections : option Tensor2) (gt_bboxes : Tensor2) (gt_cls : list Q)
| SaveOneTxt (predn : Tensor2) (pred_masks : Masks) (with_conf : bool) (shape : nat * nat)
    (im_file : string).

Record Validator := {
  args : Args;
  (** [self.iouv]; [self.niou] is its number of elements *)
  iouv : list Q;
  is_coco : bool;
  batch_i : nat;
  metrics_keys : list string;
  process : option MaskDecoder;
  plot_masks : list Masks;
  stats : Stats;
  seen : nat;
  jdict : list string;
  events : list Event
}.

Definition niou (v : Validator) : nat := length (iouv v).

Definition set_process (d : option MaskDecoder) (v : Validator) : Validator :=
  {| args := args v; iouv := iouv v; is_coco := is_coco v; batch_i := batch_i v;
     metrics_keys := metrics_keys v; process := d; plot_masks := plot_masks v;
     stats := stats v; seen := seen v; jdict := jdict v; events := events v |}.

Definition set_plot_masks (p : list Masks) (v : Validator) : Validator :=
  {| args := args v; iouv := iouv v; is_coco := is_coco v; batch_i := batch_i v;
     metrics_keys := metrics_keys v; process := process v; plot_masks := p;
     stats := stats v; seen := seen v; jdict := jdict v; events := events v |}.

Definition set_stats (s : Stats) (v : Validator) : Validator :=
  {| args := args v; iouv := iouv v; is_coco := is_coco v; batch_i := batch_i v;
     metrics_keys := metrics_keys v; process := process v; plot_masks := plot_masks v;
     stats := s; seen := seen v; jdict := jdict v; events := events v |}.

Definition set_seen (n : nat) (v : Validator) : Validator :=
  {| args := args v; iouv := iouv v; is_coco := is_coco v; batch_i := batch_i v;
     metrics_keys := metrics_keys v; process := process v; plot_masks := plot_masks v;
     stats := stats v; seen := n; jdict := jdict v; events := events v |}.

Definition set_jdict (j : list string) (v : Validator) : Validator :=
  {| args := args v; iouv := iouv v; is_coco := is_coco v; batch_i := batch_i v;
     metrics_keys := metrics_keys v; process := process v; plot_masks := plot_masks v;
     stats := stats v; seen := seen v; jdict := j; events := events v |}.

Definition emit (e : Event) (v : Validator) : Validator :=
  {| args := args v; iouv := iouv v; is_coco := is_coco v; batch_i := batch_i v;
     metrics_keys := metrics_keys v; process := process v; plot_masks := plot_masks v;
     stats := stats v; seen := seen v; jdict := jdict v; events := events v ++ [e] |}.

(** The function [self.process] is bound to. *)
Definition decoder (O : Ops) (d : MaskDecoder) : Proto -> Tensor2 -> Tensor2 -> nat * nat -> Masks :=
  match d with
  | ProcessMaskNative => process_mask_native O
  | ProcessMaskObbSeg => process_mask_obb_seg O
  end.

(** [init_metrics(model)]; [super_init_metrics] is the base class's
    initialisation. *)
Definition init_metrics (super_init_metrics : Validator -> Validator) (v : Validator) : Validator :=
  let v := super_init_metrics v in
  let v := set_plot_masks [] v in
  let v := if save_json (args v) then emit (CheckRequirements "pycocotools>=2.0.6") v else v in
  (* more accurate vs faster *)
  let v := set_process
             (Some (if save_json (args v) || save_txt (args v)
                    then ProcessMaskNative else ProcessMaskObbSeg)) v in
  set_stats empty_stats v.

(** ** One sample *)

Record Batch := {
  (** image index of every label *)
  batch_idx : list nat;
  (** the [(n, 1)] class column *)
  cls : list Q;
  bboxes : Tensor2;
  ori_shape : list (nat * nat);
  (** [batch["img"].shape[2:]] *)
  img_hw : nat * nat;
  ratio_pad : list RatioPad;
  masks : Masks;
  im_file : list string
}.

(** [batch["batch_idx"] == si] *)
Definition sample_mask (si : nat) (batch : Batch) : list bool :=
  (fun b => bool_decide (b = si)) <$> batch_idx batch.

(** The dictionary [_prepare_batch] returns. *)
Record PBatch := {
  pb_cls : list Q;
  pb_bbox : Tensor2;
  pb_ori_shape : nat * nat;
  pb_imgsz : nat * nat;
  pb_ratio_pad : RatioPad;
  pb_masks : Masks
}.

(** [xs[mask]] for a boolean mask: [IndexError] when the lengths differ. *)
Definition masked {A} (mask : list bool) (xs : list A) : list A :=
  omap (fun bx : bool * A => if bx.1 then Some bx.2 else None) (zip mask xs).

Definition bool_index {A} (mask : list bool) (xs : list A) : option (list A) :=
  if decide (length mask = length xs) then Some (masked mask xs) else None.

(** [cls.unique()]: the distinct values in increasing order. *)
Fixpoint insert_unique (x : Q) (l : list Q) : list Q :=
  match l with
  | [] => [x]
  | y :: l' =>
      if Qeq_bool x y then l
      else if Qle_bool x y then x :: l
      else y :: insert_unique x l'
  end.

Definition unique (l : list Q) : list Q := foldr insert_unique [] l.

Section Sample.

Context (G : Geometry) (O : Ops).

(** [ops.scale_boxes(img1_shape, boxes, img0_shape, ratio_pad=ratio_pad,
    xywh=True)]: every row needs its four box columns. *)
Definition scale_boxes (img1_shape : nat * nat) (boxes : Tensor2) (img0_shape : nat * nat)
    (rp : RatioPad) : option Tensor2 :=
  mapM (fun r : Row =>
          match r with
          | x :: y :: w :: h :: rest =>
              let '(x', y', w', h') := scale_box O img1_shape img0_shape rp (x, y, w, h) in
              Some (x' :: y' :: w' :: h' :: rest)
          | _ => None
          end) boxes.

(** [bbox[..., :4].mul_(torch.tensor(imgsz)[[1, 0, 1, 0]])] *)
Definition mul_imgsz (imgsz : nat * nat) (bbox : Tensor2) : option Tensor2 :=
  let h := inject_Z (Z.of_nat imgsz.1) in
  let w := inject_Z (Z.of_nat imgsz.2) in
  mapM (fun r : Row =>
          match r with
          | a :: b :: c :: d :: rest => Some ((a * w)%Q :: (b * h)%Q :: (c * w)%Q :: (d * h)%Q :: rest)
          | _ => None
          end) bbox.

Definition _prepare_batch (v : Validator) (si : nat) (batch : Batch) : option PBatch :=
  let idx := sample_mask si batch in
  cls ← bool_index idx (cls batch);
  bbox ← bool_index idx (bboxes batch);
  ori_shape ← ori_shape batch !! si;
  let imgsz := img_hw batch in
  ratio_pad ← ratio_pad batch !! si;
  bbox ←
    (if decide (length cls = 0) then Some bbox
     else bbox ← mul_imgsz imgsz bbox; scale_boxes imgsz bbox ori_shape ratio_pad);
  gt_planes ←
    (if overlap_mask (args v)
     then p ← planes (masks batch) !! si; Some [p]
     else bool_index idx (planes (masks batch)));
  Some {| pb_cls := cls; pb_bbox := bbox; pb_ori_shape := ori_shape; pb_imgsz := imgsz;
          pb_ratio_pad := ratio_pad;
          pb_masks := {| mask_hw := mask_hw (masks batch); planes := gt_planes |} |}.

Definition _prepare_pred (v : Validator) (pred : Tensor2) (pbatch : PBatch) (proto : Proto)
    : option (Tensor2 * Masks) :=
  (* predn = pred.clone(), rescaled in place through the view predn[:, :4] *)
  predn ← scale_boxes (pb_imgsz pbatch) pred (pb_ori_shape pbatch) (pb_ratio_pad pbatch);
  process ← process v;
  let pred_masks :=
    decoder O process proto (cols_from_to_last 6 pred)
            (cat1 (cols_to 4 pred) (last_col pred)) (pb_imgsz pbatch) in
  Some (predn, pred_masks).

(** The body of the loop of [update_metrics] for sample [si]; the second
    component is [pred] after the call, which the loop may have written to in
    place. *)
Definition update_sample (batch : Batch) (v : Validator) (si : nat) (pred : Tensor2)
    (proto : Proto) : option (Validator * Tensor2) :=
  let v := set_seen (S (seen v)) v in
  let npr := length pred in
  pbatch ← _prepare_batch v si batch;
  let cls := pb_cls pbatch in
  let bbox := pb_bbox pbatch in
  let nl := length cls in
  if decide (npr = 0) then
    let stat :=
      {| stat_conf := []; stat_pred_cls := [];
         stat_tp := zeros npr (niou v); stat_tp_m := zeros npr (niou v);
         stat_target_cls := cls; stat_target_img := unique cls |} in
    if decide (nl = 0) then Some (v, pred)
    else
      let v := set_stats (append_stat stat (stats v)) v in
      let v := if plots (args v) then emit (ConfusionProcessBatch None bbox cls) v else v in
      Some (v, pred)
  else
    (* Masks *)
    let gt_masks := pb_masks pbatch in
    (* Predictions *)
    pred ← (if single_cls (args v) then set_col 5 0%Q pred else Some pred);
    '(predn, pred_masks) ← _prepare_pred v pred pbatch proto;
    conf ← col 4 predn;
    pred_cls ← col 5 predn;
    (* Evaluate *)
    '(tp, tp_m) ←
      (if decide (nl = 0) then Some (zeros npr (niou v), zeros npr (niou v))
       else
         tp ← _process_batch G (iouv v) predn bbox cls None None false false;
         tp_m ← _process_batch G (iouv v) predn bbox cls (Some pred_masks) (Some gt_masks)
                  (overlap_mask (args v)) true;
         Some (tp, tp_m));
    let stat :=
      {| stat_conf := conf; stat_pred_cls := pred_cls; stat_tp := tp; stat_tp_m := tp_m;
         stat_target_cls := cls; stat_target_img := unique cls |} in
    let v := if plots (args v) then emit (ConfusionProcessBatch (Some predn) bbox cls) v else v in
    let v := set_stats (append_stat stat (stats v)) v in
    let pred_masks := as_uint8 O pred_masks in
    let v :=
      if plots (args v) && bool_decide (batch_i v < 3)
      then set_plot_masks (plot_masks v ++
             [{| mask_hw := mask_hw pred_masks; planes := take 300 (planes pred_masks) |}]) v
      else v in
    (* Save *)
    v ←
      (if save_json (args v) then
         file ← im_file batch !! si;
         rp ← ratio_pad batch !! si;
         Some (set_jdict
                 (jdict v ++ pred_to_json O predn file
                            (scale_image O pred_masks (pb_ori_shape pbatch) rp)) v)
       else Some v);
    v ←
      (if save_txt (args v) then
         file ← im_file batch !! si;
         Some (emit (SaveOneTxt predn pred_masks (save_conf (args v)) (pb_ori_shape pbatch) file) v)
       else Some v);
    Some (v, pred).

End Sample.

(** ** The whole batch *)

Section UpdateMetrics.

Context (G : Geometry) (O : Ops).

(** [for si, (pred, proto) in enumerate(zip(preds[0], preds[1]))], from
    index [si] on. *)
Fixpoint update_loop (batch : Batch) (v : Validator) (si : nat) (l : list (Tensor2 * Proto))
    : option (Validator * list Tensor2) :=
  match l with
  | [] => Some (v, [])
  | (pred, proto) :: l' =>
      '(v, pred) ← update_sample G O batch v si pred proto;
      '(v, preds) ← update_loop batch v (S si) l';
      Some (v, pred :: preds)
  end.

(** [update_metrics(preds, batch)]: the validator afterwards, and the
    detections the loop went through as it leaves them. *)
Definition update_metrics (preds : list Tensor2 * list Proto) (batch : Batch) (v : Validator)
    : option (Validator * list Tensor2) :=
  update_loop batch v 0 (zip preds.1 preds.2).

End UpdateMetrics.

(** ** COCO cross-check *)

Inductive outcome (A : Type) :=
| Returns (a : A)
| Raises (e : string).
Arguments Returns {A} a.
Arguments Raises {A} e.

(** What pycocotools does in one call of [eval_json]. *)
Record CocoApi := {
  (** [check_requirements], the two imports, the two [is_file]
      assertions, [COCO(...)], [loadRes(...)] and the two [COCOeval(...)] *)
  coco_load : outcome unit;
  (** evaluator [i]: the image ids, [evaluate()], [accumulate()],
      [summarize()], and then its [stats] array *)
  coco_stats : nat -> outcome (list Q)
}.

Inductive LogLine :=
| LogInfo (msg : string)
| LogWarning (msg : string).

(** [stats[keys[idx + 1]], stats[keys[idx]] = eval.stats[:2]] with
    [idx = i * 4 + 2]: the right-hand side is unpacked before either key is
    looked up. *)
Definition coco_update (keys : list string) (i : nat) (a : list Q) (stats : gmap string Q)
    : outcome (gmap string Q) :=
  let idx := i * 4 + 2 in
  match a with
  | v0 :: v1 :: _ =>
      match keys !! (idx + 1), keys !! idx with
      | Some k1, Some k0 => Returns (<[k0:=v1]> (<[k1:=v0]> stats))
      | _, _ => Raises "IndexError"
      end
  | _ => Raises "ValueError"
  end.

(** The [for] loop of the [try] block over the evaluators [l]: the
    dictionary as the loop leaves it, and the exception that ended it. *)
Fixpoint coco_loop (keys : list string) (api : CocoApi) (l : list nat) (stats : gmap string Q)
    : gmap string Q * option string :=
  match l with
  | [] => (stats, None)
  | i :: l' =>
      match coco_stats api i with
      | Raises e => (stats, Some e)
      | Returns a =>
          match coco_update keys i a stats with
          | Raises e => (stats, Some e)
          | Returns stats' => coco_loop keys api l' stats'
          end
      end
  end.

(** The [try] block. *)
Definition coco_try (keys : list string) (api : CocoApi) (stats : gmap string Q)
    : gmap string Q * option string :=
  match coco_load api with
  | Raises e => (stats, Some e)
  | Returns _ => coco_loop keys api [0; 1] stats
  end.

(** [eval_json(stats)]: the returned dictionary and the lines logged. *)
Definition eval_json (api : CocoApi) (v : Validator) (stats : gmap string Q)
    : gmap string Q * list LogLine :=
  if save_json (args v) && is_coco v && bool_decide (jdict v ≠ []) then
    let info := LogInfo "Evaluating pycocotools mAP" in
    match coco_try (metrics_keys v) api stats with
    | (stats, None) => (stats, [info])
    | (stats, Some e) => (stats, [info; LogWarning ("pycocotools unable to run: " +:+ e)])
    end
  else (stats, []).

(** ** Notions used by the statements *)

(** The two operands [_process_batch] hands to [mask_iou] on the mask
    path: ground truth first, predictions second. *)
Definition mask_operands (G : Geometry) (gt_cls : list Q) (pred_masks gt_masks : Masks)
    (overlap : bool) : option (Masks * Masks) :=
  gt ←
    (if overlap then
       let nl := length gt_cls in
       where_eq_index nl (repeat0 nl gt_masks)
     else Some gt_masks);
  Some (if decide (mask_hw gt = mask_hw pred_masks) then gt
        else gt_ (1 # 2)
               {| mask_hw := mask_hw pred_masks;
                  planes := interpolate_bilinear G (planes gt) (mask_hw pred_masks) |},
        pred_masks).

(** Resolution [a] is smaller than resolution [b]. *)
Definition smaller_hw (a b : nat * nat) : Prop := a.1 < b.1 ∧ a.2 < b.2.

(** The reading under which predicted masks of a smaller resolution are
    brought up to the ground-truth resolution before they are compared. *)
Definition pred_upsampled_when_smaller : Prop :=
  ∀ (G : Geometry) (gt_cls : list Q) (pm gm : Masks) (overlap : bool) (g p : Masks),
    smaller_hw (mask_hw pm) (mask_hw gm) →
    mask_operands G gt_cls pm gm overlap = Some (g, p) →
    mask_hw p = mask_hw gm.

(** Every entry of a stack of masks satisfies [P]. *)
Definition all_pixels (P : Q → Prop) (m : Masks) : Prop :=
  Forall (Forall (Forall P)) (planes m).

(** A geometry kernel that differs from [G] in [box_iou] only. *)
Definition with_box_iou (f : Tensor2 -> Tensor2 -> list (list Q)) (G : Geometry) : Geometry :=
  {| box_iou := f; batch_probiou := batch_probiou G;
     interpolate_bilinear := interpolate_bilinear G |}.

(** A detection row [x, y, w, h, conf, cls, coefficients..., angle] and
    its rotated box [x, y, w, h, angle]. *)
Definition obb_of_row (r b : Row) : Prop :=
  ∃ x y w h c k coef a, r = [x; y; w; h; c; k] ++ coef ++ [a] ∧ b = [x; y; w; h; a].

(** The labels of sample [si]. *)
Definition labels (si : nat) (batch : Batch) : list Q :=
  masked (sample_mask si batch) (cls batch).

(** A batch whose fields are aligned: one class, one box of at least four
    columns and (without the overlap encoding) one mask per label, and one
    shape, one ratio/pad pair, one file name and (with the overlap encoding)
    one raster per image up to [si]. *)
Definition batch_ok (overlap : bool) (si : nat) (batch : Batch) : Prop :=
  length (batch_idx batch) = length (cls batch)
  ∧ length (batch_idx batch) = length (bboxes batch)
  ∧ Forall (λ r : Row, 4 ≤ length r) (bboxes batch)
  ∧ is_Some (ori_shape batch !! si)
  ∧ is_Some (ratio_pad batch !! si)
  ∧ is_Some (im_file batch !! si)
  ∧ (if overlap then is_Some (planes (masks batch) !! si)
     else length (batch_idx batch) = length (planes (masks batch))).

(** All entries of a boolean matrix are [False]. *)
Definition all_false (m : BoolMatrix) : Prop := Forall (Forall (λ b : bool, b = false)) (brows m).

(** A boolean matrix of shape [n x t]. *)
Definition has_shape (n t : nat) (m : BoolMatrix) : Prop :=
  length (brows m) = n ∧ ncols m = t ∧ Forall (λ r, length r = t) (brows m).

(** The condition under which [eval_json] attempts the cross-check. *)
Definition coco_enabled (v : Validator) : bool :=
  save_json (args v) && is_coco v && bool_decide (jdict v ≠ []).

(** The keys the cross-check may write: [metrics.keys] at 2, 3, 6 and 7. *)
Definition coco_keys (keys : list string) : list string :=
  omap (λ i : nat, keys !! i) [2; 3; 6; 7].

(** The reading under which [eval_json] returns the dictionary as it was
    passed in. *)
Definition eval_json_returns_stats_unchanged : Prop :=
  ∀ (api : CocoApi) (v : Validator) (stats : gmap string Q),
    (eval_json api v stats).1 = stats.

(** The reading under which every sample without predictions has a record
    appended to the statistics. *)
Definition record_appended_without_predictions : Prop :=
  ∀ (G : Geometry) (O : Ops) (batch : Batch) (v v' : Validator) (si : nat) (proto : Proto)
    (pred' : Tensor2),
    batch_ok (overlap_mask (args v)) si batch →
    update_sample G O batch v si [] proto = Some (v', pred') →
    length (conf (stats v')) = S (length (conf (stats v))).

(** ** Sample data *)

(** A stand-in geometry kernel: any two boxes overlap fully, and
    resampling yields rasters of the requested size filled with 1/4. *)
Definition sample_geometry : Geometry :=
  {| box_iou := λ gt pr, (λ _, (λ _, 0%Q) <$> pr) <$> gt;
     batch_probiou := λ gt pr, (λ _, (λ _, 1%Q) <$> pr) <$> gt;
     interpolate_bilinear := λ ps hw, (λ _, replicate hw.1 (replicate hw.2 (1 # 4)%Q)) <$> ps |}.

(** One predicted mask of resolution 1 x 1. *)
Definition pred_1x1 : Masks := {| mask_hw := (1, 1); planes := [[[1%Q]]] |}.

(** One ground-truth mask of resolution 2 x 2. *)
Definition gt_2x2 : Masks := {| mask_hw := (2, 2); planes := [[[1%Q; 1%Q]; [1%Q; 1%Q]]] |}.

(** An overlap-encoded 2 x 3 raster with two instances. *)
Definition raster_2inst : Plane := [[1%Q; 1%Q; 0%Q]; [0%Q; 2%Q; 2%Q]].

(** Two detections [x, y, w, h, conf, cls, coefficient, angle]. *)
Definition det_2 : Tensor2 :=
  [[10; 10; 4; 2; 9 # 10; 3; 1 # 2; 1 # 5]; [20; 20; 6; 2; 8 # 10; 1; 1 # 3; 0]]%Q.

(** Stand-in collaborators: boxes are left as they are, the native decoder
    gives one full-resolution mask of ones per detection and the fast
    decoder one 1 x 1 mask per detection. *)
Definition sample_ops : Ops :=
  {| scale_box := λ _ _ _ b, b;
     process_mask_native := λ _ _ boxes hw,
       {| mask_hw := hw; planes := (λ _, replicate hw.1 (replicate hw.2 1%Q)) <$> boxes |};
     process_mask_obb_seg := λ _ _ boxes _,
       {| mask_hw := (1, 1); planes := (λ _, [[1%Q]]) <$> boxes |};
     as_uint8 := λ m, m;
     scale_image := λ m _ _, m;
     pred_to_json := λ predn file _, (λ _, file) <$> predn |}.

Definition sample_args (single : bool) : Args :=
  {| save_json := false; save_txt := false; save_conf := false; single_cls := single;
     overlap_mask := true; plots := false |}.

(** A validator after [init_metrics], with two IoU thresholds. *)
Definition sample_validator (single : bool) : Validator :=
  {| args := sample_args single; iouv := [1 # 2; 3 # 4]%Q; is_coco := false; batch_i := 0;
     metrics_keys := []; process := Some ProcessMaskObbSeg; plot_masks := [];
     stats := empty_stats; seen := 0; jdict := []; events := [] |}.

(** One image with two labels, of classes 3 and 1. *)
Definition sample_batch : Batch :=
  {| batch_idx := [0; 0]; cls := [3; 1]%Q;
     bboxes := [[1 # 2; 1 # 2; 1 # 4; 1 # 4; 0]; [1 # 4; 1 # 4; 1 # 8; 1 # 8; 0]]%Q;
     ori_shape := [(2, 3)]; img_hw := (2, 3); ratio_pad := [((1, 1), (0, 0))%Q];
     masks := {| mask_hw := (2, 3); planes := [raster_2inst] |}; im_file := ["0.jpg"] |}.

(** One image without labels. *)
Definition unlabelled_batch : Batch :=
  {| batch_idx := []; cls := []; bboxes := [];
     ori_shape := [(2, 3)]; img_hw := (2, 3); ratio_pad := [((1, 1), (0, 0))%Q];
     masks := {| mask_hw := (2, 3); planes := [[[0; 0; 0]; [0; 0; 0]]%Q] |};
     im_file := ["0.jpg"] |}.

(** The keys of the segmentation metrics. *)
Definition segment_keys : list string :=
  ["metrics/precision(B)"; "metrics/recall(B)"; "metrics/mAP50(B)"; "metrics/mAP50-95(B)";
   "metrics/precision(M)"; "metrics/recall(M)"; "metrics/mAP50(M)"; "metrics/mAP50-95(M)"].

(** A validator of a COCO run that has exported one detection. *)
Definition coco_validator : Validator :=
  {| args := {| save_json := true; save_txt := false; save_conf := false;
                single_cls := false; overlap_mask := true; plots := false |};
     iouv := [1 # 2; 3 # 4]%Q; is_coco := true; batch_i := 0;
     metrics_keys := segment_keys; process := Some ProcessMaskNative; plot_masks := [];
     stats := empty_stats; seen := 1; jdict := ["detection"]; events := [] |}.

(** pycocotools runs through and reports mAP50-95 = 1/2, mAP50 = 7/10. *)
Definition coco_runs : CocoApi :=
  {| coco_load := Returns (); coco_stats := λ _, Returns [1 # 2; 7 # 10; 1 # 2]%Q |}.

(** pycocotools is not installed. *)
Definition coco_missing : CocoApi :=
  {| coco_load := Raises "No module named pycocotools"; coco_stats := λ _, Returns [] |}.

(** The mask evaluation fails after the box evaluation went through. *)
Definition coco_fails_late : CocoApi :=
  {| coco_load := Returns ();
     coco_stats := λ i, if decide (i = 0) then Returns [1 # 2; 7 # 10]%Q
                        else Raises "segm evaluation failed" |}.

(** ** Notions used by the further statements *)

(** The tensor after [pred[:, 5] = 0]. *)
Definition zero_class (t : Tensor2) : Tensor2 := (λ r : Row, <[5:=0%Q]> r) <$> t.

(** The six lists of the statistics have one length. *)
Definition aligned (s : Stats) : Prop :=
  length (tp_m s) = length (conf s)
  ∧ length (tp s) = length (conf s)
  ∧ length (pred_cls s) = length (conf s)
  ∧ length (target_cls s) = length (conf s)
  ∧ length (target_img s) = length (conf s).

(** Every list of [a] is the beginning of the corresponding list of [b]. *)
Definition stats_prefix (a b : Stats) : Prop :=
  tp_m a `prefix_of` tp_m b
  ∧ tp a `prefix_of` tp b
  ∧ conf a `prefix_of` conf b
  ∧ pred_cls a `prefix_of` pred_cls b
  ∧ target_cls a `prefix_of` target_cls b
  ∧ target_img a `prefix_of` target_img b.

(** What [_prepare_batch] needs of a batch for sample [si]: one class and
    one box per label, a shape and a ratio/pad pair for the image, four box
    columns on the labels of the sample if it has any, and a raster for the
    image (overlap encoding) or one mask per label. *)
Definition prepare_ok (overlap : bool) (si : nat) (batch : Batch) : Prop :=
  length (batch_idx batch) = length (cls batch)
  ∧ length (batch_idx batch) = length (bboxes batch)
  ∧ is_Some (ori_shape batch !! si)
  ∧ is_Some (ratio_pad batch !! si)
  ∧ (labels si batch ≠ [] →
     Forall (λ r : Row, 4 ≤ length r) (masked (sample_mask si batch) (bboxes batch)))
  ∧ (if overlap then is_Some (planes (masks batch) !! si)
     else length (batch_idx batch) = length (planes (masks batch))).

(** The assignments [stats[k] = x] of a list of pairs, first to last. *)
Definition write_all (kvs : list (string * Q)) (s : gmap string Q) : gmap string Q :=
  foldl (λ m kv, <[kv.1:=kv.2]> m) s kvs.

(** A detection row of six columns [x, y, w, h, conf, cls] and what
    [cat([row[:4], row[-1:]])] makes of it. *)
Definition box_of_6_columns (r b : Row) : Prop :=
  ∃ x y w h c k, r = [x; y; w; h; c; k] ∧ b = [x; y; w; h; k].

(** Whether sample [si] leaves a record in the statistics: it has
    predictions or labels. *)
Definition recorded (batch : Batch) (si : nat) (pred : Tensor2) : bool :=
  negb (bool_decide (length pred = 0) && bool_decide (length (labels si batch) = 0)).

(** The labels of the samples that leave a record, in the order of the
    loop; [preds] starts at sample [si]. *)
Fixpoint recorded_labels (batch : Batch) (si : nat) (preds : list Tensor2) : list (list Q) :=
  match preds with
  | [] => []
  | pred :: preds =>
      (if recorded batch si pred then [labels si batch] else [])
      ++ recorded_labels batch (S si) preds
  end.

(** Matching on overlap alone: the greedy assignment of section 4.2 on
    the matrix as it is, with no class gating; [n] is the number of
    predictions. *)
Definition geometric_match (iouv : list Q) (n : nat) (iou : list (list Q)) : BoolMatrix :=
  {| ncols := length iouv;
     brows := (λ i, (λ t, bool_decide (i ∈ matched t iou)) <$> iouv) <$> seq 0 n |}.

(** What is left of a matrix when only the ground-truth class decides: the
    row of a ground truth of class 0 is kept, up to [n] columns, and the row
    of any other ground truth is zeroed. *)
Definition gt_gate (n : nat) (tcs : list Q) (S : list (list Q)) : list (list Q) :=
  zip_with (λ (tc : Q) (row : list Q),
              (λ s : Q, if Qeq_bool 0 tc then s else 0%Q) <$> take n row) tcs S.

(** A matrix with one row per ground truth and one column per prediction. *)
Definition iou_shape (m n : nat) (S : list (list Q)) : Prop :=
  length S = m ∧ Forall (λ row : list Q, length row = n) S.

(** The reading under which every sample of a single-class run is matched
    on the overlap of its boxes alone. *)
Definition single_cls_matching_is_geometric : Prop :=
  ∀ (G : Geometry) (O : Ops) (batch : Batch) (v v' : Validator) (si : nat)
    (pred pred' predn : Tensor2) (proto : Proto) (pb : PBatch),
    single_cls (args v) = true →
    batch_ok (overlap_mask (args v)) si batch →
    pred ≠ [] →
    labels si batch ≠ [] →
    update_sample G O batch v si pred proto = Some (v', pred') →
    _prepare_batch O v si batch = Some pb →
    scale_boxes O (pb_imgsz pb) pred' (pb_ori_shape pb) (pb_ratio_pad pb) = Some predn →
    last (tp (stats v'))
    = Some (geometric_match (iouv v) (length pred)
              (batch_probiou G (pb_bbox pb) (cat1 (cols_to 4 predn) (last_col predn)))).

(** One image of a single-class data set: two labels, both of class 0. *)
Definition single_cls_batch : Batch :=
  {| batch_idx := [0; 0]; cls := [0; 0]%Q;
     bboxes := [[1 # 2; 1 # 2; 1 # 4; 1 # 4; 0]; [1 # 4; 1 # 4; 1 # 8; 1 # 8; 0]]%Q;
     ori_shape := [(2, 3)]; img_hw := (2, 3); ratio_pad := [((1, 1), (0, 0))%Q];
     masks := {| mask_hw := (2, 3); planes := [raster_2inst] |}; im_file := ["0.jpg"] |}.

(** ** The mask path of [_process_batch] *)

Lemma imap_replicate {A B} (f : nat → A → B) (n : nat) (x : A) :
  imap f (replicate n x) = (λ j, f j x) <$> seq 0 n.
Proof.
  revert f. induction n as [|n IH]; intros f; [done|].
  cbn [replicate]. rewrite imap_cons, IH. cbn [seq fmap list_fmap].
  f_equal. rewrite <- fmap_S_seq, <- list_fmap_compose. done.
Qed.

Lemma concat_replicate_singleton {A} (n : nat) (x : A) :
  concat (replicate n [x]) = replicate n x.
Proof. induction n as [|n IH]; [done|]. cbn. by rewrite IH. Qed.

Lemma where_eq_index_raster (nl : nat) (hw : nat * nat) (raster : Plane) :
  where_eq_index nl (repeat0 nl {| mask_hw := hw; planes := [raster] |})
  = Some {| mask_hw := hw; planes := (λ i, plane_eq (S i) raster) <$> seq 0 nl |}.
Proof.
  unfold where_eq_index, repeat0. cbn [planes mask_hw].
  rewrite concat_replicate_singleton, length_replicate.
  rewrite decide_True by done. by rewrite imap_replicate.
Qed.

Lemma where_eq_index_hw (nl : nat) (m e : Masks) :
  where_eq_index nl m = Some e → mask_hw e = mask_hw m.
Proof.
  unfold where_eq_index. intros H.
  repeat case_decide; simplify_eq; try done.
  destruct (planes m) as [|p [|??]]; by simplify_eq.
Qed.

Lemma _process_batch_masks (G : Geometry) (thr : list Q) (det gtb : Tensor2) (gt_cls : list Q)
    (pm gm : Masks) (overlap : bool) :
  _process_batch G thr det gtb gt_cls (Some pm) (Some gm) overlap true
  = '(g, p) ← mask_operands G gt_cls pm gm overlap;
    cls ← col 5 det;
    Some (match_predictions thr cls gt_cls (mask_iou (view_flat g) (view_flat p))).
Proof.
  unfold _process_batch, mask_operands. cbn.
  destruct overlap; cbn; [|done].
  by destruct (where_eq_index _ _).
Qed.

Lemma eq_index_exclusive (x : Q) (i j : nat) :
  i ≠ j →
  Qeq_bool x (inject_Z (Z.of_nat i)) = true →
  Qeq_bool x (inject_Z (Z.of_nat j)) = true →
  False.
Proof.
  intros Hne Hi Hj. apply Qeq_bool_iff in Hi, Hj.
  apply Hne, Nat2Z.inj, inject_Z_injective.
  by rewrite <- Hi, <- Hj.
Qed.

Lemma intersection_pointwise_zero {A} (f g : A → Q) (l : list A) :
  (∀ x, (f x * g x)%Q = 0%Q) → intersection (f <$> l) (g <$> l) = 0%Q.
Proof.
  intros H. unfold intersection. induction l as [|x l IH]; [done|].
  cbn. rewrite H. cbn in IH. by rewrite IH.
Qed.

Lemma concat_plane_eq (i : nat) (p : Plane) :
  concat (plane_eq i p)
  = (λ x : Q, if Qeq_bool x (inject_Z (Z.of_nat i)) then 1%Q else 0%Q) <$> concat p.
Proof.
  unfold plane_eq. induction p as [|r p IH]; [done|].
  cbn. by rewrite IH, fmap_app.
Qed.

Lemma plane_eq_disjoint (i j : nat) (p : Plane) :
  i ≠ j → intersection (concat (plane_eq i p)) (concat (plane_eq j p)) = 0%Q.
Proof.
  intros Hne. rewrite !concat_plane_eq.
  apply intersection_pointwise_zero. intros x.
  destruct (Qeq_bool x (inject_Z (Z.of_nat i))) eqn:Hi,
           (Qeq_bool x (inject_Z (Z.of_nat j))) eqn:Hj; try done.
  destruct (eq_index_exclusive x i j Hne Hi Hj).
Qed.

Lemma plane_eq_lookup (i y x : nat) (p : Plane) (row : list Q) (v : Q) :
  p !! y = Some row → row !! x = Some v →
  ∃ mrow, plane_eq i p !! y = Some mrow
          ∧ mrow !! x = Some (if Qeq_bool v (inject_Z (Z.of_nat i)) then 1%Q else 0%Q).
Proof.
  intros Hy Hx. unfold plane_eq.
  exists ((λ x : Q, if Qeq_bool x (inject_Z (Z.of_nat i)) then 1%Q else 0%Q) <$> row). split.
  - by rewrite list_lookup_fmap, Hy.
  - by rewrite list_lookup_fmap, Hx.
Qed.

Lemma instance_planes_lookup (nl i : nat) (raster : Plane) :
  i < nl → ((λ i, plane_eq (S i) raster) <$> seq 0 nl) !! i = Some (plane_eq (S i) raster).
Proof. intros Hi. by rewrite list_lookup_fmap, lookup_seq_lt. Qed.

(** C1.  With the overlap encoding the single ground-truth raster is
    expanded into one binary mask per ground-truth instance: mask [i] is 1
    exactly on the pixels equal to [i + 1] and 0 elsewhere, the masks of two
    different instances have an empty intersection, and the expanded masks
    (brought to the prediction resolution when it differs) are what mask IoU
    is computed on. *)
Theorem overlap_raster_expansion (G : Geometry) (thr : list Q) (det gtb : Tensor2)
    (gt_cls : list Q) (pm : Masks) (hw : nat * nat) (raster : Plane) :
  let nl := length gt_cls in
  let gm := {| mask_hw := hw; planes := [raster] |} in
  let inst := {| mask_hw := hw; planes := (λ i, plane_eq (S i) raster) <$> seq 0 nl |} in
  let gt :=
    if decide (hw = mask_hw pm) then inst
    else gt_ (1 # 2) {| mask_hw := mask_hw pm;
                        planes := interpolate_bilinear G (planes inst) (mask_hw pm) |} in
  where_eq_index nl (repeat0 nl gm) = Some inst
  ∧ length (planes inst) = nl
  ∧ (∀ i y x row v, i < nl → raster !! y = Some row → row !! x = Some v →
       ∃ m mrow, planes inst !! i = Some m ∧ m !! y = Some mrow
                 ∧ mrow !! x = Some (if Qeq_bool v (inject_Z (Z.of_nat (i + 1))) then 1%Q else 0%Q))
  ∧ (∀ i j a b, i ≠ j → planes inst !! i = Some a → planes inst !! j = Some b →
       intersection (concat a) (concat b) = 0%Q)
  ∧ _process_batch G thr det gtb gt_cls (Some pm) (Some gm) true true
    = cls ← col 5 det;
      Some (match_predictions thr cls gt_cls (mask_iou (view_flat gt) (view_flat pm))).
Proof.
  intros nl gm inst gt. split_and!.
  - apply where_eq_index_raster.
  - subst inst. cbn. by rewrite length_fmap, length_seq.
  - intros i y x row v Hi Hy Hx.
    destruct (plane_eq_lookup (S i) y x raster row v Hy Hx) as (mrow & Hm & Hv).
    exists (plane_eq (S i) raster), mrow. split_and!; [|done|].
    + by apply instance_planes_lookup.
    + by replace (i + 1) with (S i) by lia.
  - intros i j a b Hne Ha Hb. subst inst. cbn in Ha, Hb.
    rewrite list_lookup_fmap in Ha, Hb.
    destruct (seq 0 nl !! i) as [i'|] eqn:Ei; [|done].
    destruct (seq 0 nl !! j) as [j'|] eqn:Ej; [|done].
    apply lookup_seq in Ei as [-> _], Ej as [-> _]. cbn in Ha, Hb. simplify_eq.
    apply plane_eq_disjoint. lia.
  - rewrite _process_batch_masks. unfold mask_operands.
    subst nl gm. rewrite where_eq_index_raster. done.
Qed.

(** ** The box path of [_process_batch] *)

Lemma obb_row_spec (r : Row) :
  7 ≤ length r →
  ∃ k, r !! 5 = Some k ∧ obb_of_row r (take 4 r ++ drop (length r - 1) r).
Proof.
  intros Hlen.
  destruct r as [|x [|y [|w [|h [|c [|k rest]]]]]]; cbn in Hlen; try lia.
  destruct rest as [|a rest _] using rev_ind; [cbn in Hlen; lia|].
  exists k. split; [done|].
  exists x, y, w, h, c, k, rest, a. split; [done|].
  cbn [take app]. do 4 f_equal.
  cbn [length]. rewrite length_app. cbn [length].
  replace (S (S (S (S (S (S (length rest + 1)))))) - 1) with (6 + length rest) by lia.
  cbn [drop plus]. by rewrite drop_app_length.
Qed.

Lemma box_path_rows (det : Tensor2) :
  Forall (λ r : Row, 7 ≤ length r) det →
  ∃ cls, col 5 det = Some cls
         ∧ length cls = length det
         ∧ Forall2 obb_of_row det (cat1 (cols_to 4 det) (last_col det)).
Proof.
  unfold col, cat1, cols_to, last_col.
  induction 1 as [|r det Hr _ (cls & Hcls & Hlen & IH)].
  - exists []. by split_and!.
  - destruct (obb_row_spec r Hr) as (k & Hk & Hrow).
    exists (k :: cls). cbn. rewrite Hk. cbn. rewrite Hcls. cbn.
    split_and!; [done|by rewrite Hlen|]. by constructor.
Qed.

Lemma _process_batch_box_iou (f : Tensor2 → Tensor2 → list (list Q)) (G : Geometry)
    (thr : list Q) (det gtb : Tensor2) (gt_cls : list Q) (pm gm : option Masks)
    (overlap masks : bool) :
  _process_batch (with_box_iou f G) thr det gtb gt_cls pm gm overlap masks
  = _process_batch G thr det gtb gt_cls pm gm overlap masks.
Proof. done. Qed.

(** C2.  On the box path, for detections with at least 6 + 1 columns, the
    similarity matrix is the rotated-box probabilistic IoU of the
    ground-truth boxes and the rows [x, y, w, h, angle] made of the first
    four columns and the last column of every detection; the class column
    and that matrix go to the matcher, and the axis-aligned box IoU has no
    part in the result. *)
Theorem box_path_uses_probiou (G : Geometry) (thr : list Q) (det gtb : Tensor2)
    (gt_cls : list Q) (pm gm : option Masks) (overlap : bool) :
  Forall (λ r : Row, 7 ≤ length r) det →
  ∃ cls boxes,
    col 5 det = Some cls
    ∧ boxes = cat1 (cols_to 4 det) (last_col det)
    ∧ Forall2 obb_of_row det boxes
    ∧ _process_batch G thr det gtb gt_cls pm gm overlap false
      = Some (match_predictions thr cls gt_cls (batch_probiou G gtb boxes))
    ∧ ∀ f, _process_batch (with_box_iou f G) thr det gtb gt_cls pm gm overlap false
           = Some (match_predictions thr cls gt_cls (batch_probiou G gtb boxes)).
Proof.
  intros Hdet. destruct (box_path_rows det Hdet) as (cls & Hcls & _ & Hrows).
  exists cls, (cat1 (cols_to 4 det) (last_col det)).
  assert (_process_batch G thr det gtb gt_cls pm gm overlap false
          = Some (match_predictions thr cls gt_cls
                    (batch_probiou G gtb (cat1 (cols_to 4 det) (last_col det))))) as Heq.
  { unfold _process_batch. cbn. rewrite Hcls. done. }
  split_and!; [done..|].
  intros f. by rewrite _process_batch_box_iou.
Qed.

(** ** Resolution parity on the mask path *)

Lemma gt__binary (c : Q) (m : Masks) : all_pixels (λ x, x = 1%Q ∨ x = 0%Q) (gt_ c m).
Proof.
  unfold all_pixels, gt_. cbn.
  apply Forall_fmap, Forall_true. intros pl.
  apply Forall_fmap, Forall_true. intros row.
  apply Forall_fmap, Forall_true. intros x. cbn.
  destruct (Qlt_le_dec c x); auto.
Qed.

Lemma gt__lookup (c : Q) (m : Masks) (i y x : nat) (pl : Plane) (row : list Q) (v : Q) :
  planes m !! i = Some pl → pl !! y = Some row → row !! x = Some v →
  ∃ pl' row', planes (gt_ c m) !! i = Some pl' ∧ pl' !! y = Some row'
              ∧ row' !! x = Some (if Qlt_le_dec c v then 1%Q else 0%Q).
Proof.
  intros Hi Hy Hx. unfold gt_. cbn.
  eexists _, _. split_and!.
  - by rewrite list_lookup_fmap, Hi.
  - by rewrite list_lookup_fmap, Hy.
  - by rewrite list_lookup_fmap, Hx.
Qed.

(** Without the overlap encoding the operands always exist. *)
Lemma mask_operands_plain (G : Geometry) (gt_cls : list Q) (pm gm : Masks) :
  ∃ g, mask_operands G gt_cls pm gm false = Some (g, pm).
Proof. unfold mask_operands. cbn. eauto. Qed.

(** C3, as stated, fails: predicted masks of a smaller resolution than the
    ground truth are not brought up to the ground-truth resolution; they
    reach mask IoU at their own resolution. *)
Lemma pred_masks_are_not_upsampled : ¬ pred_upsampled_when_smaller.
Proof.
  intros H.
  specialize (H sample_geometry [] pred_1x1 gt_2x2 false
                (gt_ (1 # 2) {| mask_hw := (1, 1); planes := [[[(1 # 4)%Q]]] |}) pred_1x1).
  assert (smaller_hw (mask_hw pred_1x1) (mask_hw gt_2x2)) as Hs by (unfold smaller_hw; cbn; lia).
  specialize (H Hs eq_refl). cbn in H. discriminate H.
Qed.

(** C3, amended.  On the mask path the predicted masks are never resampled.
    When the two resolutions are equal the ground-truth masks (expanded
    first, under the overlap encoding) are compared as they are; when they
    differ it is the ground-truth masks that are resampled bilinearly to the
    resolution of the predictions and then set to 1 where the resampled
    value is strictly greater than 0.5 and to 0 elsewhere. *)
Theorem gt_resampled_to_pred_resolution (G : Geometry) (thr : list Q) (det gtb : Tensor2)
    (gt_cls : list Q) (pm gm : Masks) (overlap : bool) (g p : Masks) :
  mask_operands G gt_cls pm gm overlap = Some (g, p) →
  ∃ gt,
    (if overlap then where_eq_index (length gt_cls) (repeat0 (length gt_cls) gm)
     else Some gm) = Some gt
    ∧ mask_hw gt = mask_hw gm
    ∧ p = pm
    ∧ mask_hw g = mask_hw pm
    ∧ (mask_hw gm = mask_hw pm → g = gt)
    ∧ (mask_hw gm ≠ mask_hw pm →
         g = gt_ (1 # 2) {| mask_hw := mask_hw pm;
                            planes := interpolate_bilinear G (planes gt) (mask_hw pm) |}
         ∧ all_pixels (λ x, x = 1%Q ∨ x = 0%Q) g
         ∧ ∀ i y x pl row v,
             interpolate_bilinear G (planes gt) (mask_hw pm) !! i = Some pl →
             pl !! y = Some row → row !! x = Some v →
             ∃ pl' row', planes g !! i = Some pl' ∧ pl' !! y = Some row'
                         ∧ row' !! x = Some (if Qlt_le_dec (1 # 2) v then 1%Q else 0%Q))
    ∧ _process_batch G thr det gtb gt_cls (Some pm) (Some gm) overlap true
      = cls ← col 5 det;
        Some (match_predictions thr cls gt_cls (mask_iou (view_flat g) (view_flat pm))).
Proof.
  intros Hop.
  unfold mask_operands in Hop.
  destruct (if overlap then _ else _) as [gt|] eqn:Hgt; [|done].
  cbn in Hop. injection Hop as Hg <-.
  assert (mask_hw gt = mask_hw gm) as Hhw.
  { destruct overlap; [|by simplify_eq].
    apply where_eq_index_hw in Hgt. by rewrite Hgt. }
  exists gt. split_and!; try done.
  - subst g. case_decide; [congruence|done].
  - intros Heq. subst g. rewrite decide_True; [done|congruence].
  - intros Hne. subst g. rewrite decide_False by congruence.
    split_and!; [done|apply gt__binary|].
    intros i y x pl row v Hi Hy Hx.
    by apply (gt__lookup (1 # 2) {| mask_hw := mask_hw pm; planes := _ |} i y x pl row v).
  - rewrite _process_batch_masks. unfold mask_operands.
    rewrite Hgt. cbn. by rewrite Hg.
Qed.

(** The two-instance raster: pixel value 1 marks instance 0 and pixel value
    2 marks instance 1; the two masks are disjoint. *)
Lemma overlap_raster_expansion_witness :
  where_eq_index 2 (repeat0 2 {| mask_hw := (2, 3); planes := [raster_2inst] |})
  = Some {| mask_hw := (2, 3);
            planes := [ [[1; 1; 0]; [0; 0; 0]]; [[0; 0; 0]; [0; 1; 1]] ]%Q |}
  ∧ intersection (concat [[1; 1; 0]; [0; 0; 0]]%Q) (concat [[0; 0; 0]; [0; 1; 1]]%Q) = 0%Q.
Proof.
  destruct (overlap_raster_expansion sample_geometry [] [] [] [0%Q; 0%Q] pred_1x1 (2, 3)
              raster_2inst) as (Hexp & _ & _ & Hdis & _).
  split; [exact Hexp|].
  apply (Hdis 0 1); [lia|reflexivity|reflexivity].
Defined.

Lemma box_path_uses_probiou_witness :
  Forall (λ r : Row, 7 ≤ length r) det_2
  ∧ _process_batch sample_geometry [1 # 2; 3 # 4]%Q det_2 [[10; 10; 4; 2; 0]]%Q [3%Q]
      None None false false
    = Some (match_predictions [1 # 2; 3 # 4]%Q [3; 1]%Q [3%Q]
              (batch_probiou sample_geometry [[10; 10; 4; 2; 0]]%Q
                 [[10; 10; 4; 2; 1 # 5]; [20; 20; 6; 2; 0]]%Q)).
Proof.
  assert (Forall (λ r : Row, 7 ≤ length r) det_2) as Hdet
    by (repeat constructor; cbn; lia).
  split; [exact Hdet|].
  destruct (box_path_uses_probiou sample_geometry [1 # 2; 3 # 4]%Q det_2
              [[10; 10; 4; 2; 0]]%Q [3%Q] None None false Hdet)
    as (cls & boxes & Hcls & Hboxes & _ & Heq & _).
  cbn in Hcls. injection Hcls as <-. cbn in Hboxes. subst boxes. exact Heq.
Defined.

Lemma gt_resampled_to_pred_resolution_witness :
  mask_operands sample_geometry [] pred_1x1 gt_2x2 false
  = Some ({| mask_hw := (1, 1); planes := [[[0%Q]]] |}, pred_1x1)
  ∧ _process_batch sample_geometry [1 # 2]%Q det_2 [] [] (Some pred_1x1) (Some gt_2x2) false true
    = Some (match_predictions [1 # 2]%Q [3; 1]%Q []
              (mask_iou (view_flat {| mask_hw := (1, 1); planes := [[[0%Q]]] |})
                 (view_flat pred_1x1))).
Proof.
  assert (mask_operands sample_geometry [] pred_1x1 gt_2x2 false
          = Some ({| mask_hw := (1, 1); planes := [[[0%Q]]] |}, pred_1x1)) as Hop
    by reflexivity.
  split; [exact Hop|].
  destruct (gt_resampled_to_pred_resolution sample_geometry [1 # 2]%Q det_2 [] []
              pred_1x1 gt_2x2 false _ _ Hop) as (gt & _ & _ & _ & _ & _ & _ & Heq).
  exact Heq.
Defined.

(** ** Columns and rows *)

Lemma col_length (k : nat) (t : Tensor2) (c : list Q) : col k t = Some c → length c = length t.
Proof. intros H. symmetry. by eapply length_mapM. Qed.

Lemma col_Some (k : nat) (t : Tensor2) :
  Forall (λ r : Row, k < length r) t → ∃ c, col k t = Some c.
Proof.
  intros H. apply (mapM_is_Some_2 (λ r : Row, r !! k)).
  eapply Forall_impl; [exact H|]. intros r Hr. by apply lookup_lt_is_Some_2.
Qed.

Lemma col_lookup (k : nat) (t : Tensor2) (c : list Q) (i : nat) (r : Row) :
  col k t = Some c → t !! i = Some r → ∃ x, c !! i = Some x ∧ r !! k = Some x.
Proof.
  intros Hc Hi. apply mapM_Some_1 in Hc.
  destruct (Forall2_lookup_l _ _ _ _ _ Hc Hi) as (x & Hx & Hk). eauto.
Qed.

Lemma set_col_Some (k : nat) (x : Q) (t : Tensor2) :
  Forall (λ r : Row, k < length r) t → set_col k x t = Some ((λ r : Row, <[k:=x]> r) <$> t).
Proof.
  intros H. unfold set_col. induction H as [|r t Hr _ IH]; [done|].
  cbn. rewrite decide_True by done. cbn. cbn in IH. by rewrite IH.
Qed.

Lemma set_col_inv (k : nat) (x : Q) (t t' : Tensor2) :
  set_col k x t = Some t' →
  t' = (λ r : Row, <[k:=x]> r) <$> t ∧ Forall (λ r : Row, k < length r) t.
Proof.
  unfold set_col. revert t'. induction t as [|r t IH]; intros t' H.
  - apply length_mapM in H. by destruct t'.
  - cbn in H. case_decide; [|done]. cbn in H.
    destruct (mapM _ t) as [t0|] eqn:Ht; [|done]. injection H as <-.
    destruct (IH t0 eq_refl) as [-> Hall]. split; [done|by constructor].
Qed.

Lemma col_set_col (k : nat) (x : Q) (t : Tensor2) :
  Forall (λ r : Row, k < length r) t →
  col k ((λ r : Row, <[k:=x]> r) <$> t) = Some (replicate (length t) x).
Proof.
  intros H. unfold col. induction H as [|r t Hr _ IH]; [done|].
  cbn. rewrite list_lookup_insert_eq by done. cbn. cbn in IH. by rewrite IH.
Qed.

Section ScaleBoxes.

Context (O : Ops).

Lemma scale_boxes_inv (s1 s0 : nat * nat) (rp : RatioPad) (t t' : Tensor2) :
  scale_boxes O s1 t s0 rp = Some t' →
  Forall2 (λ r r' : Row, length r' = length r ∧ drop 4 r' = drop 4 r ∧ 4 ≤ length r) t t'.
Proof.
  intros H. apply mapM_Some_1 in H.
  eapply Forall2_impl; [exact H|]. intros r r' Hr. cbn in Hr.
  destruct r as [|x [|y [|w [|h rest]]]]; try done.
  destruct (scale_box O s1 s0 rp (x, y, w, h)) as [[[x' y'] w'] h'].
  simplify_eq. cbn. split_and!; [done..|lia].
Qed.

Lemma scale_boxes_Some (s1 s0 : nat * nat) (rp : RatioPad) (t : Tensor2) :
  Forall (λ r : Row, 4 ≤ length r) t → ∃ t', scale_boxes O s1 t s0 rp = Some t'.
Proof.
  intros H. apply mapM_is_Some_2.
  eapply Forall_impl; [exact H|]. intros r Hr. cbn.
  destruct r as [|x [|y [|w [|h rest]]]]; cbn in Hr; try lia.
  by destruct (scale_box O s1 s0 rp (x, y, w, h)) as [[[x' y'] w'] h'].
Qed.

Lemma scale_boxes_col (s1 s0 : nat * nat) (rp : RatioPad) (t t' : Tensor2) (k : nat) :
  4 ≤ k → scale_boxes O s1 t s0 rp = Some t' → col k t' = col k t.
Proof.
  intros Hk H. apply scale_boxes_inv in H. unfold col.
  induction H as [|r r' t t' (Hlen & Hdrop & H4) _ IH]; [done|].
  cbn. cbn in IH. rewrite IH. f_equal.
  replace k with (4 + (k - 4)) by lia.
  rewrite <- !lookup_drop. by rewrite Hdrop.
Qed.

Lemma scale_boxes_length (s1 s0 : nat * nat) (rp : RatioPad) (t t' : Tensor2) :
  scale_boxes O s1 t s0 rp = Some t' → length t' = length t.
Proof. intros H. symmetry. by eapply length_mapM. Qed.

Lemma scale_boxes_arity (s1 s0 : nat * nat) (rp : RatioPad) (t t' : Tensor2) (n : nat) :
  scale_boxes O s1 t s0 rp = Some t' →
  Forall (λ r : Row, n ≤ length r) t → Forall (λ r : Row, n ≤ length r) t'.
Proof.
  intros H. apply scale_boxes_inv in H.
  induction H as [|r r' t t' (Hlen & _ & _) _ IH]; [done|].
  intros Hall. apply Forall_cons in Hall as [Hr Hall].
  constructor; [lia|auto].
Qed.

Lemma mul_imgsz_Some (imgsz : nat * nat) (t : Tensor2) :
  Forall (λ r : Row, 4 ≤ length r) t →
  ∃ t', mul_imgsz imgsz t = Some t' ∧ Forall (λ r : Row, 4 ≤ length r) t'.
Proof.
  unfold mul_imgsz. induction 1 as [|r t Hr _ (t' & IH & Hall)].
  - by exists [].
  - destruct r as [|a [|b [|c [|d rest]]]]; cbn in Hr; try lia.
    cbn. cbn in IH. rewrite IH. cbn. eexists. split; [done|].
    constructor; [cbn; lia|done].
Qed.

End ScaleBoxes.

Lemma masked_Forall {A} (P : A → Prop) (mask : list bool) (xs : list A) :
  Forall P xs → Forall P (masked mask xs).
Proof.
  intros H. unfold masked. revert mask.
  induction H as [|x xs Hx _ IH]; intros [|b mask]; cbn; try done.
  destruct b; cbn; [constructor|]; auto.
Qed.

Lemma masked_length {A B} (mask : list bool) (xs : list A) (ys : list B) :
  length xs = length ys → length (masked mask xs) = length (masked mask ys).
Proof.
  unfold masked. revert mask ys.
  induction xs as [|x xs IH]; intros [|b mask] [|y ys] H; cbn in *; try done.
  destruct b; cbn; auto.
Qed.

(** ** Shapes of correctness matrices *)

Lemma zeros_shape (n t : nat) : has_shape n t (zeros n t).
Proof.
  unfold has_shape, zeros. cbn. rewrite length_replicate. split_and!; [done..|].
  apply Forall_replicate. by rewrite length_replicate.
Qed.

Lemma zeros_all_false (n t : nat) : all_false (zeros n t).
Proof. unfold all_false, zeros. cbn. by do 2 apply Forall_replicate. Qed.

Lemma match_predictions_shape (thr pred_classes true_classes : list Q) (iou : list (list Q)) :
  has_shape (length pred_classes) (length thr)
    (match_predictions thr pred_classes true_classes iou).
Proof.
  unfold has_shape, match_predictions. cbn.
  rewrite length_fmap, length_seq. split_and!; [done..|].
  apply Forall_fmap, Forall_true. intros i. cbn. by rewrite length_fmap.
Qed.

Lemma _process_batch_box_shape (G : Geometry) (thr : list Q) (det gtb : Tensor2)
    (gt_cls : list Q) :
  Forall (λ r : Row, 6 ≤ length r) det →
  ∃ cls, col 5 det = Some cls
    ∧ _process_batch G thr det gtb gt_cls None None false false
      = Some (match_predictions thr cls gt_cls
                (batch_probiou G gtb (cat1 (cols_to 4 det) (last_col det))))
    ∧ has_shape (length det) (length thr)
        (match_predictions thr cls gt_cls
           (batch_probiou G gtb (cat1 (cols_to 4 det) (last_col det)))).
Proof.
  intros Hdet. destruct (col_Some 5 det) as (cls & Hcls).
  { eapply Forall_impl; [exact Hdet|]. intros r Hr. cbn in Hr. lia. }
  exists cls. split_and!; [done| |].
  - unfold _process_batch. cbn. by rewrite Hcls.
  - rewrite <- (col_length 5 det cls Hcls). apply match_predictions_shape.
Qed.

Lemma _process_batch_mask_shape (G : Geometry) (thr : list Q) (det gtb : Tensor2)
    (gt_cls : list Q) (pm gm : Masks) (overlap : bool) :
  Forall (λ r : Row, 6 ≤ length r) det →
  (overlap = true → ∃ raster, planes gm = [raster]) →
  ∃ cls g,
    col 5 det = Some cls
    ∧ mask_operands G gt_cls pm gm overlap = Some (g, pm)
    ∧ _process_batch G thr det gtb gt_cls (Some pm) (Some gm) overlap true
      = Some (match_predictions thr cls gt_cls (mask_iou (view_flat g) (view_flat pm)))
    ∧ has_shape (length det) (length thr)
        (match_predictions thr cls gt_cls (mask_iou (view_flat g) (view_flat pm))).
Proof.
  intros Hdet Hov. destruct (col_Some 5 det) as (cls & Hcls).
  { eapply Forall_impl; [exact Hdet|]. intros r Hr. cbn in Hr. lia. }
  assert (∃ g, mask_operands G gt_cls pm gm overlap = Some (g, pm)) as (g & Hg).
  { destruct overlap; [|apply mask_operands_plain].
    destruct (Hov eq_refl) as (raster & Hr). destruct gm as [hw pl]. cbn in Hr. subst pl.
    unfold mask_operands. rewrite where_eq_index_raster. cbn. eauto. }
  exists cls, g. split_and!; [done..| |].
  - rewrite _process_batch_masks, Hg. cbn. by rewrite Hcls.
  - rewrite <- (col_length 5 det cls Hcls). apply match_predictions_shape.
Qed.

(** ** Preparing the ground truth *)

Section PrepareBatch.

Context (O : Ops).

Lemma _prepare_batch_args (v v' : Validator) (si : nat) (batch : Batch) :
  args v' = args v → _prepare_batch O v' si batch = _prepare_batch O v si batch.
Proof. intros H. unfold _prepare_batch. by rewrite H. Qed.

Lemma _prepare_batch_Some (v : Validator) (si : nat) (batch : Batch) :
  batch_ok (overlap_mask (args v)) si batch →
  ∃ pb, _prepare_batch O v si batch = Some pb
    ∧ pb_cls pb = labels si batch
    ∧ pb_imgsz pb = img_hw batch
    ∧ ori_shape batch !! si = Some (pb_ori_shape pb)
    ∧ ratio_pad batch !! si = Some (pb_ratio_pad pb)
    ∧ mask_hw (pb_masks pb) = mask_hw (masks batch)
    ∧ (overlap_mask (args v) = true →
         ∃ raster, planes (masks batch) !! si = Some raster ∧ planes (pb_masks pb) = [raster]).
Proof.
  intros (Hcls & Hbox & Harity & [os Hos] & [rp Hrp] & _ & Hmasks).
  unfold _prepare_batch, bool_index, labels.
  assert (length (sample_mask si batch) = length (batch_idx batch)) as Hlen
    by (unfold sample_mask; apply length_fmap).
  cbv zeta. set (idx := sample_mask si batch) in *.
  rewrite (decide_True (P := length idx = length (cls batch))) by congruence. cbn.
  rewrite (decide_True (P := length idx = length (bboxes batch))) by congruence. cbn.
  rewrite Hos, Hrp. cbn.
  assert (∃ bbox,
    (if decide (length (masked idx (cls batch)) = 0) then Some (masked idx (bboxes batch))
     else mul_imgsz (img_hw batch) (masked idx (bboxes batch))
          ≫= λ bbox, scale_boxes O (img_hw batch) bbox os rp) = Some bbox) as (bbox & ->).
  { case_decide; [eauto|].
    destruct (mul_imgsz_Some (img_hw batch) (masked idx (bboxes batch))) as (b1 & -> & Hb1).
    { by apply masked_Forall. }
    cbn. by apply scale_boxes_Some. }
  cbn. destruct (overlap_mask (args v)).
  - destruct Hmasks as [raster Hr]. rewrite Hr. cbn.
    eexists. split_and!; try done. intros _. eauto.
  - rewrite decide_True by congruence. cbn.
    eexists. split_and!; done.
Qed.

End PrepareBatch.

(** ** One sample of [update_metrics] *)

Section UpdateSample.

Context (G : Geometry) (O : Ops).

Lemma update_sample_no_pred (batch : Batch) (v : Validator) (si : nat) (proto : Proto)
    (pb : PBatch) :
  _prepare_batch O v si batch = Some pb →
  update_sample G O batch v si [] proto
  = Some (if decide (length (pb_cls pb) = 0) then set_seen (S (seen v)) v
          else
            let v1 :=
              set_stats
                (append_stat
                   {| stat_conf := []; stat_pred_cls := [];
                      stat_tp := zeros 0 (niou v); stat_tp_m := zeros 0 (niou v);
                      stat_target_cls := pb_cls pb; stat_target_img := unique (pb_cls pb) |}
                   (stats v))
                (set_seen (S (seen v)) v) in
            if plots (args v) then emit (ConfusionProcessBatch None (pb_bbox pb) (pb_cls pb)) v1
            else v1,
          []).
Proof.
  intros Hpb. unfold update_sample.
  rewrite (_prepare_batch_args O v (set_seen (S (seen v)) v)) by done.
  rewrite Hpb. cbn. rewrite decide_True by done.
  destruct (decide (length (pb_cls pb) = 0)); [done|].
  by destruct (plots (args v)).
Qed.

(** The detections as the loop leaves them: the class column is
    overwritten in single-class runs. *)
Lemma update_sample_pred (batch : Batch) (v : Validator) (si : nat) (pred : Tensor2)
    (proto : Proto) (pb : PBatch) (d : MaskDecoder) :
  pred ≠ [] →
  _prepare_batch O v si batch = Some pb →
  ratio_pad batch !! si = Some (pb_ratio_pad pb) →
  is_Some (im_file batch !! si) →
  (overlap_mask (args v) = true → ∃ raster, planes (pb_masks pb) = [raster]) →
  Forall (λ r : Row, 6 ≤ length r) pred →
  process v = Some d →
  let pred1 := if single_cls (args v) then (λ r : Row, <[5:=0%Q]> r) <$> pred else pred in
  let pred_masks :=
    decoder O d proto (cols_from_to_last 6 pred1) (cat1 (cols_to 4 pred1) (last_col pred1))
      (pb_imgsz pb) in
  ∃ v' predn conf pcls tp tpm,
    update_sample G O batch v si pred proto = Some (v', pred1)
    ∧ scale_boxes O (pb_imgsz pb) pred1 (pb_ori_shape pb) (pb_ratio_pad pb) = Some predn
    ∧ col 4 pred1 = Some conf
    ∧ col 5 pred1 = Some pcls
    ∧ (if decide (length (pb_cls pb) = 0)
       then tp = zeros (length pred) (niou v) ∧ tpm = zeros (length pred) (niou v)
       else _process_batch G (iouv v) predn (pb_bbox pb) (pb_cls pb) None None false false
            = Some tp
            ∧ _process_batch G (iouv v) predn (pb_bbox pb) (pb_cls pb) (Some pred_masks)
                (Some (pb_masks pb)) (overlap_mask (args v)) true
              = Some tpm)
    ∧ has_shape (length pred) (niou v) tp
    ∧ has_shape (length pred) (niou v) tpm
    ∧ stats v'
      = append_stat
          {| stat_conf := conf; stat_pred_cls := pcls; stat_tp := tp; stat_tp_m := tpm;
             stat_target_cls := pb_cls pb; stat_target_img := unique (pb_cls pb) |}
          (stats v)
    ∧ args v' = args v ∧ iouv v' = iouv v ∧ process v' = process v ∧ seen v' = S (seen v).
Proof.
  intros Hne Hpb Hrp [file Hfile] Hov Harity Hproc pred1 pred_masks.
  assert (Forall (λ r : Row, 6 ≤ length r) pred1) as Harity1.
  { subst pred1. destruct (single_cls (args v)); [|done].
    apply Forall_fmap. eapply Forall_impl; [exact Harity|].
    intros r Hr. cbn. by rewrite length_insert. }
  assert (length pred1 = length pred) as Hlen1.
  { subst pred1. destruct (single_cls (args v)); [|done]. by rewrite length_fmap. }
  assert ((if single_cls (args v) then set_col 5 0%Q pred else Some pred) = Some pred1) as Hset.
  { subst pred1. destruct (single_cls (args v)); [|done].
    apply set_col_Some. eapply Forall_impl; [exact Harity|]. intros r Hr. cbn in Hr. lia. }
  destruct (scale_boxes_Some O (pb_imgsz pb) (pb_ori_shape pb) (pb_ratio_pad pb) pred1)
    as (predn & Hpredn).
  { eapply Forall_impl; [exact Harity1|]. intros r Hr. cbn in Hr. lia. }
  pose proof (scale_boxes_arity O _ _ _ _ _ 6 Hpredn Harity1) as Harityn.
  pose proof (scale_boxes_length O _ _ _ _ _ Hpredn) as Hlenn.
  destruct (col_Some 4 pred1) as (conf & Hconf).
  { eapply Forall_impl; [exact Harity1|]. intros r Hr. cbn in Hr. lia. }
  destruct (col_Some 5 pred1) as (pcls & Hpcls).
  { eapply Forall_impl; [exact Harity1|]. intros r Hr. cbn in Hr. lia. }
  assert (∃ tp tpm,
    (if decide (length (pb_cls pb) = 0)
     then Some (zeros (length pred) (niou v), zeros (length pred) (niou v))
     else _process_batch G (iouv v) predn (pb_bbox pb) (pb_cls pb) None None false false
          ≫= λ tp, _process_batch G (iouv v) predn (pb_bbox pb) (pb_cls pb) (Some pred_masks)
                     (Some (pb_masks pb)) (overlap_mask (args v)) true
                   ≫= λ tp_m, Some (tp, tp_m)) = Some (tp, tpm)
    ∧ (if decide (length (pb_cls pb) = 0)
       then tp = zeros (length pred) (niou v) ∧ tpm = zeros (length pred) (niou v)
       else _process_batch G (iouv v) predn (pb_bbox pb) (pb_cls pb) None None false false
            = Some tp
            ∧ _process_batch G (iouv v) predn (pb_bbox pb) (pb_cls pb) (Some pred_masks)
                (Some (pb_masks pb)) (overlap_mask (args v)) true
              = Some tpm)
    ∧ has_shape (length pred) (niou v) tp
    ∧ has_shape (length pred) (niou v) tpm) as (tp & tpm & Htp & Hcase & Hs1 & Hs2).
  { case_decide.
    - eexists _, _. split_and!; [done..| |]; apply zeros_shape.
    - destruct (_process_batch_box_shape G (iouv v) predn (pb_bbox pb) (pb_cls pb) Harityn)
        as (c1 & _ & Hb & Hbs).
      destruct (_process_batch_mask_shape G (iouv v) predn (pb_bbox pb) (pb_cls pb)
                  pred_masks (pb_masks pb) (overlap_mask (args v)) Harityn Hov)
        as (c2 & g & _ & _ & Hm & Hms).
      rewrite Hb, Hm. cbn. eexists _, _. split_and!; [done..| |].
      + unfold niou. by rewrite <- Hlen1, <- Hlenn.
      + unfold niou. by rewrite <- Hlen1, <- Hlenn. }
  unfold update_sample.
  rewrite (_prepare_batch_args O v (set_seen (S (seen v)) v)) by done.
  rewrite Hpb. cbn [mbind option_bind].
  rewrite decide_False by (by destruct pred).
  cbn [args set_seen]. rewrite Hset. cbn [mbind option_bind].
  unfold _prepare_pred. rewrite Hpredn. cbn [mbind option_bind process set_seen].
  rewrite Hproc. cbn [mbind option_bind].
  rewrite (scale_boxes_col O _ _ _ _ _ 4 (le_n 4) Hpredn).
  rewrite (scale_boxes_col O _ _ _ _ _ 5 (le_S _ _ (le_n 4)) Hpredn).
  rewrite Hconf, Hpcls. cbn [mbind option_bind iouv set_seen].
  fold pred_masks. change (niou (set_seen (S (seen v)) v)) with (niou v).
  rewrite Htp. cbn [mbind option_bind].
  clear Htp Hset Hpb Hov.
  destruct v as [[sj stx scf scl om pl] thr coco bi keys pr pm st sn jd ev].
  cbn in Hproc. subst pr. cbn.
  match goal with
  | |- context [@bool_decide ?P ?i] => destruct (@bool_decide P i)
  end;
    destruct pl, sj, stx; cbn; rewrite ?Hfile, ?Hrp; cbn;
    eexists _, predn, conf, pcls, tp, tpm; split_and!; try done; reflexivity.
Qed.

End UpdateSample.

Lemma sample_batch_ok : batch_ok true 0 sample_batch.
Proof. unfold batch_ok. cbn. split_and!; eauto. repeat constructor; cbn; lia. Qed.

Lemma unlabelled_batch_ok : batch_ok true 0 unlabelled_batch.
Proof. unfold batch_ok. cbn. split_and!; eauto. Qed.

Lemma det_2_arity : Forall (λ r : Row, 6 ≤ length r) det_2.
Proof. repeat constructor; cbn; lia. Qed.

(** ** Statistics recorded for one sample *)

Section SampleStatistics.

Context (G : Geometry) (O : Ops).

(** Without ground truth the geometry kernel is never consulted. *)
Lemma update_sample_no_gt_geometry (G' : Geometry) (batch : Batch) (v : Validator) (si : nat)
    (pred : Tensor2) (proto : Proto) (pb : PBatch) :
  _prepare_batch O v si batch = Some pb →
  length (pb_cls pb) = 0 →
  update_sample G' O batch v si pred proto = update_sample G O batch v si pred proto.
Proof.
  intros Hpb Hnl. unfold update_sample.
  rewrite (_prepare_batch_args O v (set_seen (S (seen v)) v)) by done.
  rewrite Hpb. cbn [mbind option_bind].
  destruct (decide (length pred = 0)); [done|].
  destruct (if single_cls _ then _ else _) as [pred1|]; [|done]. cbn [mbind option_bind].
  destruct (_prepare_pred _ _ _ _ _) as [[predn pm]|]; [|done]. cbn [mbind option_bind].
  destruct (col 4 predn) as [conf|]; [|done]. cbn [mbind option_bind].
  destruct (col 5 predn) as [pcls|]; [|done]. cbn [mbind option_bind].
  by rewrite !decide_True by done.
Qed.

(** C4.  With [N > 0] predictions and no ground-truth instance the sample
    is processed, the geometry kernel and the matcher are not consulted, and
    the box and the mask correctness matrices appended to the statistics are
    both the all-False matrix of shape [N x niou]. *)
Theorem no_ground_truth_all_false (batch : Batch) (v : Validator) (si : nat) (pred : Tensor2)
    (proto : Proto) (d : MaskDecoder) :
  pred ≠ [] →
  labels si batch = [] →
  batch_ok (overlap_mask (args v)) si batch →
  Forall (λ r : Row, 6 ≤ length r) pred →
  process v = Some d →
  ∃ v' pred',
    update_sample G O batch v si pred proto = Some (v', pred')
    ∧ tp (stats v') = tp (stats v) ++ [zeros (length pred) (niou v)]
    ∧ tp_m (stats v') = tp_m (stats v) ++ [zeros (length pred) (niou v)]
    ∧ has_shape (length pred) (niou v) (zeros (length pred) (niou v))
    ∧ all_false (zeros (length pred) (niou v))
    ∧ ∀ G', update_sample G' O batch v si pred proto = Some (v', pred').
Proof.
  intros Hne Hnl Hok Harity Hproc.
  destruct (_prepare_batch_Some O v si batch Hok)
    as (pb & Hpb & Hcls & _ & _ & Hrp & _ & Hov).
  assert (is_Some (im_file batch !! si)) as Hfile by apply Hok.
  assert (overlap_mask (args v) = true → ∃ raster, planes (pb_masks pb) = [raster]) as Hov'.
  { intros Ho. destruct (Hov Ho) as (r & _ & Hr). eauto. }
  assert (length (pb_cls pb) = 0) as Hnl' by (by rewrite Hcls, Hnl).
  destruct (update_sample_pred G O batch v si pred proto pb d
              Hne Hpb Hrp Hfile Hov' Harity Hproc)
    as (v' & predn & conf & pcls & tp & tpm & Hup & _ & _ & _ & Hcase & _ & _ & Hst & _).
  rewrite decide_True in Hcase by done. destruct Hcase as [-> ->].
  eexists v', _. split_and!;
    [exact Hup|by rewrite Hst|by rewrite Hst|apply zeros_shape|apply zeros_all_false|].
  intros G'. by rewrite (update_sample_no_gt_geometry G' batch v si pred proto pb).
Qed.

(** C5, as stated, fails: for a sample with neither predictions nor ground
    truth no record is appended. *)
Lemma no_record_without_predictions_and_labels : ¬ record_appended_without_predictions.
Proof.
  intros H.
  assert (update_sample sample_geometry sample_ops unlabelled_batch (sample_validator false)
            0 [] [] = Some (set_seen 1 (sample_validator false), [])) as Hup by reflexivity.
  specialize (H sample_geometry sample_ops unlabelled_batch (sample_validator false) _ 0 [] []
                unlabelled_batch_ok Hup).
  cbn in H. discriminate H.
Qed.

(** C5, amended.  A sample without predictions is neither decoded nor matched: the
    outcome is the same for every geometry kernel and whether or not a mask
    decoder is bound.  When the sample has ground truth, the one record
    appended has correctness matrices of shape [0 x niou], empty confidence
    and predicted-class vectors, the ground-truth classes of the sample and
    their distinct values; when it has none, nothing is appended. *)
Theorem no_predictions_empty_rows (batch : Batch) (v : Validator) (si : nat) (proto : Proto) :
  batch_ok (overlap_mask (args v)) si batch →
  ∃ v',
    update_sample G O batch v si [] proto = Some (v', [])
    ∧ seen v' = S (seen v)
    ∧ (labels si batch ≠ [] →
         stats v'
         = append_stat
             {| stat_conf := []; stat_pred_cls := [];
                stat_tp := zeros 0 (niou v); stat_tp_m := zeros 0 (niou v);
                stat_target_cls := labels si batch;
                stat_target_img := unique (labels si batch) |}
             (stats v))
    ∧ (labels si batch = [] → stats v' = stats v)
    ∧ has_shape 0 (niou v) (zeros 0 (niou v))
    ∧ jdict v' = jdict v
    ∧ plot_masks v' = plot_masks v
    ∧ ∀ G' p, update_sample G' O batch (set_process p v) si [] proto
              = Some (set_process p v', []).
Proof.
  intros Hok.
  destruct (_prepare_batch_Some O v si batch Hok) as (pb & Hpb & Hcls & _).
  eexists. split_and!.
  - by apply update_sample_no_pred.
  - case_decide; [done|]. cbn. by destruct (plots (args v)).
  - intros Hnl. rewrite decide_False by (rewrite Hcls; by destruct (labels si batch)).
    cbn. rewrite Hcls. by destruct (plots (args v)).
  - intros Hnl. rewrite decide_True; [done|]. by rewrite Hcls, Hnl.
  - apply zeros_shape.
  - case_decide; [done|]. cbn. by destruct (plots (args v)).
  - case_decide; [done|]. cbn. by destruct (plots (args v)).
  - intros G' p.
    rewrite (update_sample_no_pred G' O batch (set_process p v) si proto pb)
      by (by rewrite (_prepare_batch_args O v (set_process p v))).
    f_equal. f_equal. case_decide; [done|]. cbn. by destruct (plots (args v)).
Qed.

Lemma class_overwrite_rows (b : bool) (pred : Tensor2) :
  Forall2 (λ r r' : Row, ∀ k, k ≠ 5 → r' !! k = r !! k) pred
    (if b then (λ r : Row, <[5:=0%Q]> r) <$> pred else pred).
Proof.
  destruct b.
  - apply Forall2_fmap_r, Forall_Forall2_diag, Forall_true.
    intros r k Hk. by apply list_lookup_insert_ne.
  - by apply Forall_Forall2_diag, Forall_true.
Qed.

Lemma match_predictions_row (thr cls tcs : list Q) (iou : list (list Q)) (i : nat) :
  i < length cls →
  brows (match_predictions thr cls tcs iou) !! i
  = Some ((λ t, bool_decide (i ∈ matched t (gate cls tcs iou))) <$> thr).
Proof.
  intros Hi. unfold match_predictions. cbn.
  by rewrite list_lookup_fmap, lookup_seq_lt.
Qed.

Lemma cat1_rows (t : Tensor2) :
  Forall2 (λ r b : Row, b = take 4 r ++ drop (length r - 1) r) t
    (cat1 (cols_to 4 t) (last_col t)).
Proof.
  unfold cat1, cols_to, last_col. induction t as [|r t IH]; [constructor|].
  cbn. by constructor.
Qed.

Lemma mask_operands_pred (gt_cls : list Q) (pm gm g p : Masks) (overlap : bool) :
  mask_operands G gt_cls pm gm overlap = Some (g, p) → p = pm.
Proof.
  unfold mask_operands. intros H.
  destruct (if overlap then _ else _) as [gt|]; [|done]. cbn in H. by simplify_eq.
Qed.

Lemma _process_batch_box (thr : list Q) (det gtb : Tensor2) (gt_cls : list Q)
    (tp : BoolMatrix) :
  _process_batch G thr det gtb gt_cls None None false false = Some tp →
  ∃ c, col 5 det = Some c
       ∧ tp = match_predictions thr c gt_cls
                (batch_probiou G gtb (cat1 (cols_to 4 det) (last_col det))).
Proof.
  unfold _process_batch. cbn. intros H.
  destruct (col 5 det) as [c|]; [|done]. cbn in H. exists c. by simplify_eq.
Qed.

Lemma _process_batch_mask (thr : list Q) (det gtb : Tensor2) (gt_cls : list Q)
    (pm gm : Masks) (overlap : bool) (tpm : BoolMatrix) :
  _process_batch G thr det gtb gt_cls (Some pm) (Some gm) overlap true = Some tpm →
  ∃ c g, col 5 det = Some c
         ∧ mask_operands G gt_cls pm gm overlap = Some (g, pm)
         ∧ tpm = match_predictions thr c gt_cls (mask_iou (view_flat g) (view_flat pm)).
Proof.
  rewrite _process_batch_masks. intros H.
  destruct (mask_operands G gt_cls pm gm overlap) as [[g p]|] eqn:Hmo; [|done].
  pose proof (mask_operands_pred _ _ _ _ _ _ Hmo) as ->.
  cbn in H. destruct (col 5 det) as [c|]; [|done]. cbn in H.
  exists c, g. by simplify_eq.
Qed.

(** C6.  The fields appended for a sample are aligned with its
    predictions.  The confidence vector, the predicted-class vector and the
    two correctness matrices have one entry or row per prediction, entry [i]
    of the two vectors is read from row [i] of the prediction tensor, and the
    rows of the tensor are in the order in which they arrived, changed in the
    class column at most.  The matrices are all-[False] when the sample has
    no prediction or no label; otherwise the box matrix is the matcher's
    answer on the rotated-box kernel applied to the ground-truth boxes and to
    the boxes cut, row by row, from the rescaled predictions, and the mask
    matrix its answer on the mask IoU of the ground-truth masks and the
    masks decoded from the predictions, so that row [i] of either matrix
    tells at which thresholds column [i] of that similarity matrix, the
    column of prediction [i], was assigned. *)
Theorem stat_rows_aligned (batch : Batch) (v : Validator) (si : nat) (pred : Tensor2)
    (proto : Proto) (d : MaskDecoder) :
  batch_ok (overlap_mask (args v)) si batch →
  Forall (λ r : Row, 6 ≤ length r) pred →
  process v = Some d →
  ∃ v' pred' pb,
    update_sample G O batch v si pred proto = Some (v', pred')
    ∧ _prepare_batch O v si batch = Some pb
    ∧ length pred' = length pred
    ∧ Forall2 (λ r r' : Row, ∀ k, k ≠ 5 → r' !! k = r !! k) pred pred'
    ∧ ((pred = [] ∧ labels si batch = [] ∧ stats v' = stats v)
       ∨ ∃ s,
           stats v' = append_stat s (stats v)
           ∧ length (stat_conf s) = length pred
           ∧ length (stat_pred_cls s) = length pred
           ∧ has_shape (length pred) (niou v) (stat_tp s)
           ∧ has_shape (length pred) (niou v) (stat_tp_m s)
           ∧ (∀ i r, pred' !! i = Some r →
                stat_conf s !! i = r !! 4 ∧ stat_pred_cls s !! i = r !! 5)
           ∧ (pred = [] ∨ labels si batch = [] →
                stat_tp s = zeros (length pred) (niou v)
                ∧ stat_tp_m s = zeros (length pred) (niou v))
           ∧ (pred ≠ [] → labels si batch ≠ [] →
                ∃ predn g,
                  let boxes := cat1 (cols_to 4 predn) (last_col predn) in
                  let pm := decoder O d proto (cols_from_to_last 6 pred')
                              (cat1 (cols_to 4 pred') (last_col pred')) (pb_imgsz pb) in
                  let iou_box := batch_probiou G (pb_bbox pb) boxes in
                  let iou_mask := mask_iou (view_flat g) (view_flat pm) in
                  scale_boxes O (pb_imgsz pb) pred' (pb_ori_shape pb) (pb_ratio_pad pb)
                  = Some predn
                  ∧ Forall2 (λ r rn : Row, length rn = length r ∧ drop 4 rn = drop 4 r)
                      pred' predn
                  ∧ Forall2 (λ rn b : Row, b = take 4 rn ++ drop (length rn - 1) rn)
                      predn boxes
                  ∧ mask_operands G (labels si batch) pm (pb_masks pb)
                      (overlap_mask (args v)) = Some (g, pm)
                  ∧ stat_tp s
                    = match_predictions (iouv v) (stat_pred_cls s) (labels si batch) iou_box
                  ∧ stat_tp_m s
                    = match_predictions (iouv v) (stat_pred_cls s) (labels si batch) iou_mask
                  ∧ (∀ i, i < length pred →
                       brows (stat_tp s) !! i
                       = Some ((λ t, bool_decide
                                       (i ∈ matched t (gate (stat_pred_cls s)
                                                         (labels si batch) iou_box)))
                               <$> iouv v)
                       ∧ brows (stat_tp_m s) !! i
                         = Some ((λ t, bool_decide
                                         (i ∈ matched t (gate (stat_pred_cls s)
                                                           (labels si batch) iou_mask)))
                                 <$> iouv v)))).
Proof.
  intros Hok Harity Hproc.
  destruct (_prepare_batch_Some O v si batch Hok)
    as (pb & Hpb & Hcls & _ & _ & Hrp & _ & Hov).
  destruct (decide (pred = [])) as [->|Hne].
  - eexists _, [], pb.
    split_and!; [by apply update_sample_no_pred|done|done|constructor|].
    case_decide as Hnl.
    + left. split_and!; [done| |done]. rewrite Hcls in Hnl. by destruct (labels si batch).
    + right. eexists. split_and!.
      * cbn. by destruct (plots (args v)).
      * done.
      * done.
      * apply zeros_shape.
      * apply zeros_shape.
      * intros i r Hi. by rewrite lookup_nil in Hi.
      * done.
      * done.
  - assert (is_Some (im_file batch !! si)) as Hfile by apply Hok.
    assert (overlap_mask (args v) = true → ∃ raster, planes (pb_masks pb) = [raster]) as Hov'.
    { intros Ho. destruct (Hov Ho) as (r & _ & Hr). eauto. }
    destruct (update_sample_pred G O batch v si pred proto pb d
                Hne Hpb Hrp Hfile Hov' Harity Hproc)
      as (v' & predn & conf & pcls & tp & tpm & Hup & Hsc & Hc4 & Hc5 & Hcase & Hs1 & Hs2
          & Hst & _).
    set (pred1 := if single_cls (args v) then (λ r : Row, <[5:=0%Q]> r) <$> pred else pred)
      in *.
    assert (length pred1 = length pred) as Hlen1.
    { subst pred1. destruct (single_cls (args v)); [|done]. by rewrite length_fmap. }
    exists v', pred1, pb. split_and!; [done|done|done|apply class_overwrite_rows|].
    right. eexists. split_and!; [exact Hst|..]; cbn.
    + by rewrite (col_length 4 pred1 conf Hc4).
    + by rewrite (col_length 5 pred1 pcls Hc5).
    + done.
    + done.
    + intros i r Hi.
      destruct (col_lookup 4 pred1 conf i r Hc4 Hi) as (x & -> & ->).
      by destruct (col_lookup 5 pred1 pcls i r Hc5 Hi) as (y & -> & ->).
    + intros [Hp|Hl]; [done|].
      destruct (decide (length (pb_cls pb) = 0)) as [_|Hnz]; [exact Hcase|].
      exfalso. apply Hnz. by rewrite Hcls, Hl.
    + intros _ Hnl.
      destruct (decide (length (pb_cls pb) = 0)) as [Hz|_].
      { exfalso. rewrite Hcls in Hz. by destruct (labels si batch). }
      destruct Hcase as [Hb Hm]. rewrite Hcls in Hb, Hm.
      pose proof (scale_boxes_col O _ _ _ _ _ 5 (le_S _ _ (le_n 4)) Hsc) as Hcol.
      rewrite Hc5 in Hcol.
      apply _process_batch_box in Hb as (c & Hc & ->).
      apply _process_batch_mask in Hm as (c' & g & Hc' & Hmo & ->).
      assert (c = pcls) as -> by congruence. assert (c' = pcls) as -> by congruence.
      exists predn, g. cbv zeta. split_and!; [exact Hsc| |apply cat1_rows|exact Hmo|done|done|].
      * eapply Forall2_impl; [exact (scale_boxes_inv O _ _ _ _ _ Hsc)|].
        intros r rn (? & ? & _). done.
      * intros i Hi. split; apply match_predictions_row;
          by rewrite (col_length 5 pred1 pcls Hc5), Hlen1.
Qed.

(** *** Single-class runs *)

Lemma gate_row_single_cls (n : nat) (tc : Q) (row : list Q) :
  zip_with (λ pc s : Q, if Qeq_bool pc tc then s else 0%Q) (replicate n 0%Q) row
  = (λ s : Q, if Qeq_bool 0 tc then s else 0%Q) <$> take n row.
Proof.
  revert row. induction n as [|n IH]; intros [|s row]; cbn; try done.
  by rewrite IH.
Qed.

(** With every predicted class equal to 0 the class gating keeps or drops a whole
    ground-truth row: it no longer tells predictions apart. *)
Lemma gate_single_cls (n : nat) (tcs : list Q) (S : list (list Q)) :
  gate (replicate n 0%Q) tcs S
  = zip_with (λ (tc : Q) (row : list Q),
                (λ s : Q, if Qeq_bool 0 tc then s else 0%Q) <$> take n row) tcs S.
Proof.
  unfold gate. apply zip_with_ext; [|done..].
  intros tc row. apply gate_row_single_cls.
Qed.

(** With every ground-truth class equal to 0 as well the class gating changes
    nothing. *)
Lemma gate_single_cls_id (n : nat) (tcs : list Q) (S : list (list Q)) :
  Forall (λ tc : Q, Qeq_bool 0 tc = true) tcs →
  length tcs = length S →
  Forall (λ row : list Q, length row = n) S →
  gate (replicate n 0%Q) tcs S = S.
Proof.
  rewrite gate_single_cls. intros Htc. revert S.
  induction Htc as [|tc tcs Htc _ IH]; intros [|row S] Hlen Hrows; cbn in *; try done.
  apply Forall_cons in Hrows as [Hrow Hrows].
  rewrite Htc, IH by (done || lia). f_equal.
  rewrite <- Hrow, firstn_all. clear. induction row as [|s row IH]; [done|].
  cbn. by rewrite IH.
Qed.

(** In a single-class run only the detections with their class column
    zeroed matter. *)
Lemma update_sample_single_cls_ext (batch : Batch) (v : Validator) (si : nat)
    (pred pred2 : Tensor2) (proto : Proto) :
  single_cls (args v) = true →
  Forall (λ r : Row, 6 ≤ length r) pred →
  Forall (λ r : Row, 6 ≤ length r) pred2 →
  (λ r : Row, <[5:=0%Q]> r) <$> pred2 = (λ r : Row, <[5:=0%Q]> r) <$> pred →
  update_sample G O batch v si pred2 proto = update_sample G O batch v si pred proto.
Proof.
  intros Hs Ha Ha2 Heq.
  assert (length pred2 = length pred) as Hlen.
  { apply (f_equal length) in Heq. by rewrite !length_fmap in Heq. }
  destruct (decide (pred = [])) as [->|Hne]; [by destruct pred2|].
  unfold update_sample. cbn [args set_seen]. rewrite Hs, Hlen.
  destruct (_prepare_batch _ _ _ _) as [pb|]; [|done]. cbn [mbind option_bind].
  destruct (decide (length pred = 0)) as [Hz|_]; [by destruct pred|].
  rewrite (set_col_Some 5 0%Q pred), (set_col_Some 5 0%Q pred2), Heq; [reflexivity|..].
  - eapply Forall_impl; [exact Ha2|]. intros r Hr. cbn in Hr. lia.
  - eapply Forall_impl; [exact Ha|]. intros r Hr. cbn in Hr. lia.
Qed.

Lemma match_predictions_gt_gate (thr tcs : list Q) (n : nat) (S : list (list Q)) :
  match_predictions thr (replicate n 0%Q) tcs S = geometric_match thr n (gt_gate n tcs S).
Proof.
  unfold match_predictions, geometric_match, gt_gate.
  by rewrite gate_single_cls, length_replicate.
Qed.

Lemma match_predictions_class_0 (thr tcs : list Q) (n : nat) (S : list (list Q)) :
  Forall (λ tc : Q, Qeq_bool 0 tc = true) tcs →
  iou_shape (length tcs) n S →
  match_predictions thr (replicate n 0%Q) tcs S = geometric_match thr n S.
Proof.
  intros Htc [Hlen Hrows]. unfold match_predictions, geometric_match.
  by rewrite gate_single_cls_id, length_replicate.
Qed.

Lemma row_candidates_nil (t : Q) (g : nat) (h : nat → nat) (row : list Q) :
  Forall (λ s : Q, Qle_bool t s = false) row →
  omap (λ ps : nat * Q, if Qle_bool t ps.2 then Some (g, ps.1, ps.2) else None)
       (imap (λ p s, (h p, s)) row) = [].
Proof.
  intros H. revert h. induction H as [|s row Hs _ IH]; intros h; [done|].
  rewrite imap_cons. cbn. rewrite Hs. apply (IH (h ∘ S)).
Qed.

Lemma candidates_nil (t : Q) (S : list (list Q)) :
  Forall (Forall (λ s : Q, Qle_bool t s = false)) S → candidates t S = [].
Proof.
  unfold candidates. intros H.
  enough (∀ h : nat → nat,
            concat (imap (λ g row,
                            omap (λ ps : nat * Q,
                                    if Qle_bool t ps.2 then Some (h g, ps.1, ps.2) else None)
                                 (imap (λ p s, (p, s)) row)) S) = []) as Hh
    by exact (Hh id).
  induction H as [|row S Hrow _ IH]; intros h; [done|].
  rewrite imap_cons. cbn [concat].
  pose proof (row_candidates_nil t (h 0) id row Hrow) as Hr. unfold id in Hr.
  rewrite Hr. cbn. apply (IH (h ∘ Datatypes.S)).
Qed.

Lemma gt_gate_other_classes (t : Q) (n : nat) (tcs : list Q) (S : list (list Q)) :
  Forall (λ tc : Q, Qeq_bool 0 tc = false) tcs →
  Qle_bool t 0 = false →
  Forall (Forall (λ s : Q, Qle_bool t s = false)) (gt_gate n tcs S).
Proof.
  intros Htc Ht. unfold gt_gate. revert S.
  induction Htc as [|tc tcs Htc _ IH]; intros [|row S]; cbn; try constructor; [|apply IH].
  rewrite Htc. apply Forall_fmap, Forall_true. intros s. exact Ht.
Qed.

Lemma match_predictions_other_classes (thr tcs : list Q) (n : nat) (S : list (list Q)) :
  Forall (λ tc : Q, Qeq_bool 0 tc = false) tcs →
  Forall (λ t : Q, Qle_bool t 0 = false) thr →
  match_predictions thr (replicate n 0%Q) tcs S = zeros n (length thr).
Proof.
  intros Htc Hthr. rewrite match_predictions_gt_gate. unfold geometric_match, zeros.
  f_equal.
  assert (∀ i : nat,
            (λ t, bool_decide (i ∈ matched t (gt_gate n tcs S))) <$> thr
            = replicate (length thr) false) as Hrow.
  { intros i. apply const_fmap. intros k t Hk.
    assert (Qle_bool t 0 = false) as Ht.
    { by eapply (Forall_lookup_1 _ _ _ _ Hthr). }
    unfold matched. rewrite (candidates_nil t _ (gt_gate_other_classes t n tcs S Htc Ht)).
    cbn. apply bool_decide_eq_false_2, not_elem_of_nil. }
  rewrite (const_fmap _ (seq 0 n) (replicate (length thr) false)).
  - by rewrite length_seq.
  - intros k i _. apply Hrow.
Qed.

(** C10, as stated, fails: a single-class run does not match on overlap
    alone.  The ground-truth classes are not touched, so detections whose
    boxes overlap every ground-truth box fully still match none of the
    labels of classes 3 and 1. *)
Lemma single_cls_matching_not_geometric : ¬ single_cls_matching_is_geometric.
Proof.
  intros H.
  destruct (update_sample sample_geometry sample_ops sample_batch (sample_validator true) 0
              det_2 []) as [[v' pred']|] eqn:Hup; [|by vm_compute in Hup].
  destruct (_prepare_batch sample_ops (sample_validator true) 0 sample_batch)
    as [pb|] eqn:Hpb; [|by vm_compute in Hpb].
  destruct (scale_boxes sample_ops (pb_imgsz pb) pred' (pb_ori_shape pb) (pb_ratio_pad pb))
    as [predn|] eqn:Hsc.
  - specialize (H sample_geometry sample_ops sample_batch (sample_validator true) v' 0
                  det_2 pred' predn [] pb eq_refl sample_batch_ok).
    specialize (H ltac:(done) ltac:(done) Hup Hpb Hsc).
    vm_compute in Hup, Hpb. injection Hup as <- <-. injection Hpb as <-.
    vm_compute in Hsc. injection Hsc as <-.
    vm_compute in H. discriminate H.
  - vm_compute in Hup, Hpb. injection Hup as <- <-. injection Hpb as <-.
    vm_compute in Hsc. discriminate Hsc.
Qed.

(** C10, amended.  In a single-class run the class column of every
    detection is overwritten with 0 in place, before the boxes are rescaled
    and before matching: the rescaled tensor, the recorded predicted classes
    and the class vector handed to the matcher are all zero, and the result
    does not depend on the classes the detections came with.  The
    ground-truth classes stay as the batch has them, so the class gating
    then depends on the ground-truth class alone: both recorded matrices are
    the matching on overlap alone of the similarity matrix in which the rows
    of ground truth of another class than 0 are zeroed.  When every label is
    of class 0, as a single-class data set has them, that is the matching on
    overlap alone of the matrix itself; when no label is of class 0 nothing
    is matched at a positive threshold. *)
Theorem single_cls_overwrites_class (batch : Batch) (v : Validator) (si : nat) (pred : Tensor2)
    (proto : Proto) (d : MaskDecoder) :
  single_cls (args v) = true →
  pred ≠ [] →
  batch_ok (overlap_mask (args v)) si batch →
  Forall (λ r : Row, 6 ≤ length r) pred →
  process v = Some d →
  let pred0 := (λ r : Row, <[5:=0%Q]> r) <$> pred in
  let zero := replicate (length pred) 0%Q in
  ∃ v' pb predn,
    update_sample G O batch v si pred proto = Some (v', pred0)
    ∧ _prepare_batch O v si batch = Some pb
    ∧ col 5 pred0 = Some zero
    ∧ scale_boxes O (pb_imgsz pb) pred0 (pb_ori_shape pb) (pb_ratio_pad pb) = Some predn
    ∧ col 5 predn = Some zero
    ∧ last (pred_cls (stats v')) = Some zero
    ∧ (labels si batch ≠ [] →
         ∃ g,
           let pm := decoder O d proto (cols_from_to_last 6 pred0)
                       (cat1 (cols_to 4 pred0) (last_col pred0)) (pb_imgsz pb) in
           let iou_box :=
             batch_probiou G (pb_bbox pb) (cat1 (cols_to 4 predn) (last_col predn)) in
           let iou_mask := mask_iou (view_flat g) (view_flat pm) in
           mask_operands G (labels si batch) pm (pb_masks pb) (overlap_mask (args v))
           = Some (g, pm)
           ∧ last (tp (stats v'))
             = Some (match_predictions (iouv v) zero (labels si batch) iou_box)
           ∧ last (tp_m (stats v'))
             = Some (match_predictions (iouv v) zero (labels si batch) iou_mask)
           ∧ last (tp (stats v'))
             = Some (geometric_match (iouv v) (length pred)
                       (gt_gate (length pred) (labels si batch) iou_box))
           ∧ last (tp_m (stats v'))
             = Some (geometric_match (iouv v) (length pred)
                       (gt_gate (length pred) (labels si batch) iou_mask))
           ∧ (Forall (λ tc : Q, Qeq_bool 0 tc = true) (labels si batch) →
                (iou_shape (length (labels si batch)) (length pred) iou_box →
                 last (tp (stats v'))
                 = Some (geometric_match (iouv v) (length pred) iou_box))
                ∧ (iou_shape (length (labels si batch)) (length pred) iou_mask →
                   last (tp_m (stats v'))
                   = Some (geometric_match (iouv v) (length pred) iou_mask)))
           ∧ (Forall (λ tc : Q, Qeq_bool 0 tc = false) (labels si batch) →
                Forall (λ t : Q, Qle_bool t 0 = false) (iouv v) →
                last (tp (stats v')) = Some (zeros (length pred) (niou v))
                ∧ last (tp_m (stats v')) = Some (zeros (length pred) (niou v))))
    ∧ (∀ tcs S, gate zero tcs S = gt_gate (length pred) tcs S)
    ∧ (∀ tcs S,
         Forall (λ tc : Q, Qeq_bool 0 tc = true) tcs →
         length tcs = length S →
         Forall (λ row : list Q, length row = length pred) S →
         gate zero tcs S = S)
    ∧ (∀ pred2,
         Forall (λ r : Row, 6 ≤ length r) pred2 →
         (λ r : Row, <[5:=0%Q]> r) <$> pred2 = pred0 →
         update_sample G O batch v si pred2 proto = Some (v', pred0)).
Proof.
  intros Hs Hne Hok Harity Hproc pred0 zero.
  destruct (_prepare_batch_Some O v si batch Hok)
    as (pb & Hpb & Hcls & _ & _ & Hrp & _ & Hov).
  assert (is_Some (im_file batch !! si)) as Hfile by apply Hok.
  assert (overlap_mask (args v) = true → ∃ raster, planes (pb_masks pb) = [raster]) as Hov'.
  { intros Ho. destruct (Hov Ho) as (r & _ & Hr). eauto. }
  destruct (update_sample_pred G O batch v si pred proto pb d
              Hne Hpb Hrp Hfile Hov' Harity Hproc)
    as (v' & predn & conf & pcls & tp & tpm & Hup & Hsc & Hc4 & Hc5 & Hcase & Hs1 & Hs2
        & Hst & _).
  rewrite Hs in Hup, Hsc, Hc4, Hc5, Hcase. fold pred0 in Hup, Hsc, Hc4, Hc5, Hcase.
  assert (col 5 pred0 = Some zero) as Hzero.
  { apply col_set_col. eapply Forall_impl; [exact Harity|]. intros r Hr. cbn in Hr. lia. }
  assert (pcls = zero) as -> by congruence.
  pose proof (scale_boxes_col O _ _ _ _ _ 5 (le_S _ _ (le_n 4)) Hsc) as Hcol.
  rewrite Hzero in Hcol.
  exists v', pb, predn. split_and!; [done..| | | | |].
  - rewrite Hst. cbn. apply last_snoc.
  - intros Hnl.
    destruct (decide (length (pb_cls pb) = 0)) as [Hz|_].
    { exfalso. rewrite Hcls in Hz. by destruct (labels si batch). }
    destruct Hcase as [Hb Hm]. rewrite Hcls in Hb, Hm.
    apply _process_batch_box in Hb as (c & Hc & ->).
    apply _process_batch_mask in Hm as (c' & g & Hc' & Hmo & ->).
    assert (c = zero) as -> by congruence. assert (c' = zero) as -> by congruence.
    rewrite Hst. cbn [tp tp_m append_stat stat_tp stat_tp_m]. rewrite !last_snoc.
    exists g. cbv zeta. subst zero.
    split_and!; [exact Hmo|done|done|by rewrite match_predictions_gt_gate
                |by rewrite match_predictions_gt_gate| |].
    + intros H0. split; intros Hshape; f_equal; by apply match_predictions_class_0.
    + intros Hn Ht. unfold niou.
      split; f_equal; by apply match_predictions_other_classes.
  - intros tcs S. apply gate_single_cls.
  - intros tcs S. apply gate_single_cls_id.
  - intros pred2 Ha2 Heq.
    by rewrite (update_sample_single_cls_ext batch v si pred pred2 proto).
Qed.

End SampleStatistics.

(** ** The statements on the sample data *)

Lemma no_ground_truth_all_false_witness :
  det_2 ≠ []
  ∧ labels 0 unlabelled_batch = []
  ∧ batch_ok (overlap_mask (args (sample_validator false))) 0 unlabelled_batch
  ∧ Forall (λ r : Row, 6 ≤ length r) det_2
  ∧ process (sample_validator false) = Some ProcessMaskObbSeg
  ∧ ∃ v' pred',
      update_sample sample_geometry sample_ops unlabelled_batch (sample_validator false) 0
        det_2 [] = Some (v', pred')
      ∧ tp (stats v') = [zeros 2 2]
      ∧ tp_m (stats v') = [zeros 2 2].
Proof.
  split_and!; [done|reflexivity|exact unlabelled_batch_ok|exact det_2_arity|reflexivity|].
  destruct (no_ground_truth_all_false sample_geometry sample_ops unlabelled_batch
              (sample_validator false) 0 det_2 [] ProcessMaskObbSeg)
    as (v' & pred' & Hup & Htp & Htpm & _);
    [done|reflexivity|exact unlabelled_batch_ok|exact det_2_arity|reflexivity|].
  exists v', pred'. split_and!; [exact Hup|exact Htp|exact Htpm].
Defined.

Lemma no_predictions_empty_rows_witness :
  batch_ok (overlap_mask (args (sample_validator false))) 0 sample_batch
  ∧ ∃ v',
      update_sample sample_geometry sample_ops sample_batch (sample_validator false) 0 [] []
      = Some (v', [])
      ∧ stats v'
        = {| tp_m := [zeros 0 2]; tp := [zeros 0 2]; conf := [[]]; pred_cls := [[]];
             target_cls := [[3; 1]%Q]; target_img := [[1; 3]%Q] |}.
Proof.
  split; [exact sample_batch_ok|].
  destruct (no_predictions_empty_rows sample_geometry sample_ops sample_batch
              (sample_validator false) 0 [] sample_batch_ok)
    as (v' & Hup & _ & Hst & _).
  exists v'. split; [exact Hup|]. by rewrite Hst.
Defined.

Lemma stat_rows_aligned_witness :
  batch_ok (overlap_mask (args (sample_validator false))) 0 sample_batch
  ∧ Forall (λ r : Row, 6 ≤ length r) det_2
  ∧ process (sample_validator false) = Some ProcessMaskObbSeg
  ∧ ∃ v' pred',
      update_sample sample_geometry sample_ops sample_batch (sample_validator false) 0
        det_2 [] = Some (v', pred')
      ∧ length pred' = 2
      ∧ tp (stats v') = [{| ncols := 2; brows := [[true; true]; [true; true]] |}]
      ∧ conf (stats v') = [[9 # 10; 8 # 10]%Q].
Proof.
  split_and!; [exact sample_batch_ok|exact det_2_arity|reflexivity|].
  destruct (stat_rows_aligned sample_geometry sample_ops sample_batch
              (sample_validator false) 0 det_2 [] ProcessMaskObbSeg
              sample_batch_ok det_2_arity eq_refl)
    as (v' & pred' & pb & Hup & _ & Hlen & _).
  exists v', pred'. split_and!; [exact Hup|exact Hlen| |].
  - pose proof Hup as E. vm_compute in E. injection E as <- _. reflexivity.
  - pose proof Hup as E. vm_compute in E. injection E as <- _. reflexivity.
Defined.

Lemma single_cls_batch_ok : batch_ok true 0 single_cls_batch.
Proof. unfold batch_ok. cbn. split_and!; eauto. repeat constructor; cbn; lia. Qed.

Lemma single_cls_overwrites_class_witness :
  single_cls (args (sample_validator true)) = true
  ∧ det_2 ≠ []
  ∧ batch_ok (overlap_mask (args (sample_validator true))) 0 single_cls_batch
  ∧ Forall (λ r : Row, 6 ≤ length r) det_2
  ∧ process (sample_validator true) = Some ProcessMaskObbSeg
  ∧ ∃ v',
      update_sample sample_geometry sample_ops single_cls_batch (sample_validator true) 0
        det_2 []
      = Some (v', [[10; 10; 4; 2; 9 # 10; 0; 1 # 2; 1 # 5];
                   [20; 20; 6; 2; 8 # 10; 0; 1 # 3; 0]]%Q)
      ∧ last (pred_cls (stats v')) = Some [0; 0]%Q
      ∧ last (tp (stats v'))
        = Some (geometric_match [1 # 2; 3 # 4]%Q 2 [[1; 1]; [1; 1]]%Q)
      ∧ last (tp (stats v'))
        = Some {| ncols := 2; brows := [[true; true]; [true; true]] |}.
Proof.
  split_and!; [reflexivity|done|exact single_cls_batch_ok|exact det_2_arity|reflexivity|].
  destruct (single_cls_overwrites_class sample_geometry sample_ops single_cls_batch
              (sample_validator true) 0 det_2 [] ProcessMaskObbSeg)
    as (v' & pb & predn & Hup & Hpb & _ & Hsc & _ & Hlast & Hmatch & _);
    [reflexivity|done|exact single_cls_batch_ok|exact det_2_arity|reflexivity|].
  destruct Hmatch as (g & _ & _ & _ & _ & _ & Hgeo & _); [done|].
  destruct Hgeo as [Hbox _]; [by repeat constructor|].
  vm_compute in Hpb. injection Hpb as <-. vm_compute in Hsc. injection Hsc as <-.
  exists v'. split_and!; [exact Hup|exact Hlast| |].
  - rewrite Hbox; [reflexivity|]. split; [reflexivity|by repeat constructor].
  - rewrite Hbox; [reflexivity|]. split; [reflexivity|by repeat constructor].
Defined.

(** ** The mask decoder of a run *)

Section Decoder.

Context (G : Geometry) (O : Ops).

(** Processing a sample leaves the configuration of the run alone. *)
Lemma update_sample_config (batch : Batch) (v v' : Validator) (si : nat) (pred pred' : Tensor2)
    (proto : Proto) :
  update_sample G O batch v si pred proto = Some (v', pred') →
  process v' = process v ∧ args v' = args v ∧ iouv v' = iouv v.
Proof.
  intros H. unfold update_sample in H.
  destruct (_prepare_batch _ _ _ _) as [pb|]; [|done]. cbn [mbind option_bind] in H.
  destruct (decide (length pred = 0)).
  - destruct (decide (length (pb_cls pb) = 0)); simplify_eq; [done|].
    cbn. by destruct (plots (args v)).
  - destruct (if single_cls _ then _ else _) as [pred1|]; [|done].
    cbn [mbind option_bind] in H.
    destruct (_prepare_pred _ _ _ _ _) as [[predn pm]|]; [|done].
    cbn [mbind option_bind] in H.
    destruct (col 4 predn) as [conf|]; [|done]. cbn [mbind option_bind] in H.
    destruct (col 5 predn) as [pcls|]; [|done]. cbn [mbind option_bind] in H.
    destruct (if decide _ then _ else _) as [[tp tpm]|]; [|done].
    cbn [mbind option_bind] in H.
    destruct v as [[sj stx scf scl om pl] thr coco bi keys pr pms st sn jd ev].
    cbn in H.
    repeat match type of H with
           | context [@bool_decide ?P ?i] => destruct (@bool_decide P i)
           end;
      destruct pl, sj, stx; cbn in H;
      destruct (im_file batch !! si), (ratio_pad batch !! si); cbn in H;
      by simplify_eq.
Qed.

Lemma update_loop_config (batch : Batch) (l : list (Tensor2 * Proto)) (v v' : Validator)
    (si : nat) (preds' : list Tensor2) :
  update_loop G O batch v si l = Some (v', preds') →
  process v' = process v ∧ args v' = args v ∧ iouv v' = iouv v.
Proof.
  revert v si preds'. induction l as [|[pred proto] l IH]; intros v si preds' H.
  - cbn in H. by simplify_eq.
  - cbn [update_loop] in H.
    destruct (update_sample _ _ _ _ _ _ _) as [[v1 pred1]|] eqn:H1; [|done].
    cbn [mbind option_bind] in H.
    destruct (update_loop _ _ _ _ _ _) as [[v2 ps]|] eqn:H2; [|done].
    cbn in H. simplify_eq.
    apply update_sample_config in H1 as (Hp1 & Ha1 & Hi1).
    apply IH in H2 as (Hp2 & Ha2 & Hi2).
    split_and!; congruence.
Qed.

(** C7.  The mask decoder is chosen in [init_metrics], from the
    configuration as the base class leaves it: the native (more accurate)
    decoder exactly when [save_json] or [save_txt] is set, the fast one
    otherwise.  No sample and no batch changes the choice, and
    [_prepare_pred] calls whichever was chosen with the same four
    arguments. *)
Theorem decoder_selected_at_init (super_init_metrics : Validator → Validator) (v : Validator) :
  let v0 := super_init_metrics v in
  let v1 := init_metrics super_init_metrics v in
  (process v1 = Some ProcessMaskNative ↔ save_json (args v0) || save_txt (args v0) = true)
  ∧ (process v1 = Some ProcessMaskObbSeg ↔ save_json (args v0) || save_txt (args v0) = false)
  ∧ args v1 = args v0
  ∧ (∀ batch si pred proto v' pred',
       update_sample G O batch v1 si pred proto = Some (v', pred') → process v' = process v1)
  ∧ (∀ preds batch v' preds',
       update_metrics G O preds batch v1 = Some (v', preds') → process v' = process v1)
  ∧ (∀ (u : Validator) (d : MaskDecoder) pred pbatch proto,
       process u = Some d →
       _prepare_pred O u pred pbatch proto
       = predn ← scale_boxes O (pb_imgsz pbatch) pred (pb_ori_shape pbatch)
                   (pb_ratio_pad pbatch);
         Some (predn,
               decoder O d proto (cols_from_to_last 6 pred)
                 (cat1 (cols_to 4 pred) (last_col pred)) (pb_imgsz pbatch)))
  ∧ decoder O ProcessMaskNative = process_mask_native O
  ∧ decoder O ProcessMaskObbSeg = process_mask_obb_seg O.
Proof.
  intros v0 v1.
  assert (process v1
          = Some (if save_json (args v0) || save_txt (args v0)
                  then ProcessMaskNative else ProcessMaskObbSeg)) as Hp.
  { subst v1 v0. unfold init_metrics. cbn.
    destruct (save_json (args (super_init_metrics v))) eqn:E; cbn; by rewrite ?E. }
  assert (args v1 = args v0) as Ha.
  { subst v1 v0. unfold init_metrics. cbn.
    destruct (save_json (args (super_init_metrics v))) eqn:E; cbn; by rewrite ?E. }
  clearbody v1 v0. split_and!.
  - rewrite Hp. destruct (save_json (args v0) || save_txt (args v0)); split; by intros.
  - rewrite Hp. destruct (save_json (args v0) || save_txt (args v0)); split; by intros.
  - done.
  - intros batch si pred proto v' pred' H. by apply update_sample_config in H as (-> & _).
  - intros preds batch v' preds' H. unfold update_metrics in H.
    by apply update_loop_config in H as (-> & _).
  - intros u d pred pbatch proto Hd. unfold _prepare_pred.
    destruct (scale_boxes _ _ _ _ _); [|done]. cbn. by rewrite Hd.
  - done.
  - done.
Qed.

End Decoder.

(** ** The COCO cross-check *)

Lemma coco_keys_elem (keys : list string) (i : nat) (k : string) :
  i ∈ [2; 3; 6; 7] → keys !! i = Some k → k ∈ coco_keys keys.
Proof. intros Hi Hk. unfold coco_keys. apply list_elem_of_omap. eauto. Qed.

Lemma coco_update_frame (keys : list string) (i : nat) (a : list Q) (s s' : gmap string Q)
    (k : string) :
  i ∈ [0; 1] → coco_update keys i a s = Returns s' → k ∉ coco_keys keys → s' !! k = s !! k.
Proof.
  intros Hi H Hk. unfold coco_update in H.
  destruct a as [|v0 [|v1 rest]]; try done.
  destruct (keys !! (i * 4 + 2 + 1)) as [k1|] eqn:H1; [|done].
  destruct (keys !! (i * 4 + 2)) as [k0|] eqn:H0; [|done].
  injection H as <-.
  assert (i * 4 + 2 + 1 ∈ [2; 3; 6; 7] ∧ i * 4 + 2 ∈ [2; 3; 6; 7]) as [Hi1 Hi0].
  { rewrite !elem_of_cons, elem_of_nil in Hi.
    destruct Hi as [->|[->|[]]]; cbn; split; repeat constructor. }
  assert (k1 ∈ coco_keys keys) as Hk1 by by apply (coco_keys_elem keys (i * 4 + 2 + 1)).
  assert (k0 ∈ coco_keys keys) as Hk0 by by apply (coco_keys_elem keys (i * 4 + 2)).
  rewrite !lookup_insert_ne; [done|..]; by intros ->.
Qed.

Lemma coco_loop_frame (keys : list string) (api : CocoApi) (l : list nat)
    (s s' : gmap string Q) (r : option string) (k : string) :
  Forall (λ i, i ∈ [0; 1]) l → coco_loop keys api l s = (s', r) → k ∉ coco_keys keys →
  s' !! k = s !! k.
Proof.
  intros Hl. revert s. induction Hl as [|i l Hi _ IH]; intros s H Hk.
  - cbn in H. by simplify_eq.
  - cbn in H. destruct (coco_stats api i) as [a|e]; [|by simplify_eq].
    destruct (coco_update keys i a s) as [s1|e] eqn:Hu; [|by simplify_eq].
    rewrite (IH s1 H Hk). by eapply coco_update_frame.
Qed.

Lemma coco_try_frame (keys : list string) (api : CocoApi) (s s' : gmap string Q)
    (r : option string) (k : string) :
  coco_try keys api s = (s', r) → k ∉ coco_keys keys → s' !! k = s !! k.
Proof.
  unfold coco_try. intros H Hk. destruct (coco_load api); [|by simplify_eq].
  eapply coco_loop_frame; [|done..]. repeat constructor.
Qed.

Lemma eval_json_disabled (api : CocoApi) (v : Validator) (stats : gmap string Q) :
  coco_enabled v = false → eval_json api v stats = (stats, []).
Proof. unfold coco_enabled, eval_json. by intros ->. Qed.

Lemma eval_json_enabled (api : CocoApi) (v : Validator) (stats : gmap string Q) :
  coco_enabled v = true →
  eval_json api v stats
  = match coco_try (metrics_keys v) api stats with
    | (s, None) => (s, [LogInfo "Evaluating pycocotools mAP"])
    | (s, Some e) =>
        (s, [LogInfo "Evaluating pycocotools mAP";
             LogWarning ("pycocotools unable to run: " +:+ e)])
    end.
Proof. unfold coco_enabled, eval_json. by intros ->. Qed.

(** C8, as stated, fails: when pycocotools runs through, the dictionary
    that [eval_json] returns holds the COCO scores. *)
Lemma eval_json_overwrites_map : ¬ eval_json_returns_stats_unchanged.
Proof.
  intros H. specialize (H coco_runs coco_validator ∅).
  apply (f_equal (λ m : gmap string Q, m !! "metrics/mAP50(B)")) in H.
  vm_compute in H. discriminate H.
Qed.

(** C8, amended.  [eval_json] reads nothing of the accumulated per-sample
    statistics and returns no validator, so the accumulation is untouched.
    Of the dictionary it is given it can change the four entries at
    [metrics.keys] 2, 3, 6 and 7 only; it returns the dictionary as it was
    when the cross-check is not attempted or fails before its first
    assignment, and when both evaluators run through it has written their
    first two scores to the mAP50-95 and mAP50 entries of boxes and
    masks. *)
Theorem eval_json_frame (api : CocoApi) (v : Validator) (stats : gmap string Q) :
  (∀ s, eval_json api (set_stats s v) stats = eval_json api v stats)
  ∧ (∀ k, k ∉ coco_keys (metrics_keys v) → (eval_json api v stats).1 !! k = stats !! k)
  ∧ (coco_enabled v = false → eval_json api v stats = (stats, []))
  ∧ (∀ e, coco_load api = Raises e → (eval_json api v stats).1 = stats)
  ∧ (∀ e, coco_stats api 0 = Raises e → (eval_json api v stats).1 = stats)
  ∧ (∀ x0 x1 xs y0 y1 ys k2 k3 k6 k7,
       coco_enabled v = true →
       coco_load api = Returns () →
       coco_stats api 0 = Returns (x0 :: x1 :: xs) →
       coco_stats api 1 = Returns (y0 :: y1 :: ys) →
       metrics_keys v !! 2 = Some k2 → metrics_keys v !! 3 = Some k3 →
       metrics_keys v !! 6 = Some k6 → metrics_keys v !! 7 = Some k7 →
       (eval_json api v stats).1
       = <[k6:=y1]> (<[k7:=y0]> (<[k2:=x1]> (<[k3:=x0]> stats)))).
Proof.
  split_and!.
  - done.
  - intros k Hk. destruct (coco_enabled v) eqn:He.
    + rewrite eval_json_enabled by done.
      destruct (coco_try _ _ _) as [s' r] eqn:Ht.
      pose proof (coco_try_frame _ _ _ _ _ k Ht Hk) as Hf. by destruct r.
    + by rewrite eval_json_disabled.
  - apply eval_json_disabled.
  - intros e He. destruct (coco_enabled v) eqn:Hen; [|by rewrite eval_json_disabled].
    rewrite eval_json_enabled by done. unfold coco_try. by rewrite He.
  - intros e He. destruct (coco_enabled v) eqn:Hen; [|by rewrite eval_json_disabled].
    rewrite eval_json_enabled by done. unfold coco_try.
    destruct (coco_load api); [|done]. cbn. by rewrite He.
  - intros x0 x1 xs y0 y1 ys k2 k3 k6 k7 Hen Hl H0 H1 Hk2 Hk3 Hk6 Hk7.
    rewrite eval_json_enabled by done. unfold coco_try. rewrite Hl. cbn.
    rewrite H0. cbn. rewrite Hk3, Hk2. rewrite H1. cbn. by rewrite Hk7, Hk6.
Qed.

(** C9.  Whatever makes the cross-check raise, be it the requirement check
    or an import, a missing annotation or prediction file, or one of the
    evaluators, [eval_json] logs a warning that carries the message and
    returns the dictionary, as the last completed assignment left it. *)
Theorem eval_json_recovers (api : CocoApi) (v : Validator) (stats : gmap string Q) :
  coco_enabled v = true →
  ∃ s' log,
    eval_json api v stats = (s', log)
    ∧ (∀ s e, coco_try (metrics_keys v) api stats = (s, Some e) →
         s' = s ∧ log = [LogInfo "Evaluating pycocotools mAP";
                         LogWarning ("pycocotools unable to run: " +:+ e)])
    ∧ (∀ e, coco_load api = Raises e →
         s' = stats ∧ LogWarning ("pycocotools unable to run: " +:+ e) ∈ log)
    ∧ (∀ e, coco_load api = Returns () → coco_stats api 0 = Raises e →
         s' = stats ∧ LogWarning ("pycocotools unable to run: " +:+ e) ∈ log)
    ∧ (∀ e a0 s1, coco_load api = Returns () → coco_stats api 0 = Returns a0 →
         coco_update (metrics_keys v) 0 a0 stats = Returns s1 →
         coco_stats api 1 = Raises e →
         s' = s1 ∧ LogWarning ("pycocotools unable to run: " +:+ e) ∈ log)
    ∧ (∀ k, k ∉ coco_keys (metrics_keys v) → s' !! k = stats !! k).
Proof.
  intros Hen. rewrite eval_json_enabled by done.
  destruct (coco_try (metrics_keys v) api stats) as [s' r] eqn:Ht.
  exists s', (match r with
              | None => [LogInfo "Evaluating pycocotools mAP"]
              | Some e => [LogInfo "Evaluating pycocotools mAP";
                           LogWarning ("pycocotools unable to run: " +:+ e)]
              end).
  split_and!.
  - by destruct r.
  - intros s e [= -> ->]. done.
  - intros e He. unfold coco_try in Ht. rewrite He in Ht. simplify_eq.
    split; [done|set_solver].
  - intros e Hl He. unfold coco_try in Ht. rewrite Hl in Ht. cbn in Ht.
    rewrite He in Ht. simplify_eq. split; [done|set_solver].
  - intros e a0 s1 Hl H0 Hu H1. unfold coco_try in Ht. rewrite Hl in Ht. cbn in Ht.
    rewrite H0, Hu in Ht. rewrite H1 in Ht. simplify_eq. split; [done|set_solver].
  - intros k Hk. by eapply coco_try_frame.
Qed.

Lemma eval_json_frame_witness :
  coco_enabled coco_validator = true
  ∧ (eval_json coco_runs coco_validator ∅).1
    = <["metrics/mAP50(M)":=(7 # 10)%Q]>
        (<["metrics/mAP50-95(M)":=(1 # 2)%Q]>
           (<["metrics/mAP50(B)":=(7 # 10)%Q]>
              (<["metrics/mAP50-95(B)":=(1 # 2)%Q]> ∅))).
Proof.
  split; [reflexivity|].
  destruct (eval_json_frame coco_runs coco_validator ∅) as (_ & _ & _ & _ & _ & H).
  by apply (H (1 # 2)%Q (7 # 10)%Q [(1 # 2)%Q] (1 # 2)%Q (7 # 10)%Q [(1 # 2)%Q]).
Defined.

Lemma eval_json_recovers_witness :
  coco_enabled coco_validator = true
  ∧ eval_json coco_missing coco_validator ∅
    = (∅, [LogInfo "Evaluating pycocotools mAP";
           LogWarning "pycocotools unable to run: No module named pycocotools"]).
Proof.
  split; [reflexivity|].
  destruct (eval_json_recovers coco_missing coco_validator ∅ eq_refl)
    as (s' & log & Heq & Hraise & _).
  destruct (Hraise ∅ "No module named pycocotools" eq_refl) as [-> ->].
  exact Heq.
Defined.

(** A failure of the second evaluator leaves the scores of the first in
    the dictionary. *)
Lemma eval_json_late_failure :
  eval_json coco_fails_late coco_validator ∅
  = (<["metrics/mAP50(B)":=(7 # 10)%Q]> (<["metrics/mAP50-95(B)":=(1 # 2)%Q]> ∅),
     [LogInfo "Evaluating pycocotools mAP";
      LogWarning "pycocotools unable to run: segm evaluation failed"]).
Proof. reflexivity. Qed.

(** ** The modelled kernels on small inputs *)

(** Two predictions that both overlap two ground-truth boxes: each
    ground truth is taken once, at the lax threshold by both predictions and
    at the strict one by the better prediction only. *)
Lemma match_predictions_one_to_one :
  match_predictions [1 # 2; 3 # 4]%Q [0; 0]%Q [0; 0]%Q
    [[9 # 10; 8 # 10]; [7 # 10; 6 # 10]]%Q
  = {| ncols := 2; brows := [[true; true]; [true; false]] |}.
Proof. reflexivity. Qed.

(** A prediction of another class is never matched, whatever the overlap. *)
Lemma match_predictions_class_gate :
  match_predictions [1 # 2; 3 # 4]%Q [1%Q] [0%Q] [[1%Q]]
  = {| ncols := 2; brows := [[false; false]] |}.
Proof. reflexivity. Qed.

(** Identical masks have IoU 1, disjoint masks have IoU 0, and two empty
    masks have IoU 0. *)
Lemma mask_iou_small :
  Forall2 (Forall2 Qeq)
    (mask_iou [[1; 1; 0]; [0; 0; 0]]%Q [[1; 1; 0]; [0; 0; 1]; [0; 0; 0]]%Q)
    [[1; 0; 0]; [0; 0; 0]]%Q.
Proof. repeat constructor. Qed.

(** ** The loop of [update_metrics] *)

(** The loop runs the body on the samples in order, counting from 0. *)
Lemma update_metrics_cons (G : Geometry) (O : Ops) (pred : Tensor2) (preds : list Tensor2)
    (proto : Proto) (protos : list Proto) (batch : Batch) (v : Validator) :
  update_metrics G O (pred :: preds, proto :: protos) batch v
  = '(v1, pred1) ← update_sample G O batch v 0 pred proto;
    '(v2, preds2) ← update_loop G O batch v1 1 (zip preds protos);
    Some (v2, pred1 :: preds2).
Proof. reflexivity. Qed.

Lemma update_metrics_nil (G : Geometry) (O : Ops) (protos : list Proto) (batch : Batch)
    (v : Validator) :
  update_metrics G O ([], protos) batch v = Some (v, []).
Proof. reflexivity. Qed.

(** ** What one sample changes *)

Section SampleEffects.

Context (G : Geometry) (O : Ops).

Lemma append_stat_prefix (s : Stat) (a : Stats) : stats_prefix a (append_stat s a).
Proof. unfold stats_prefix, append_stat. cbn. split_and!; by apply prefix_app_r. Qed.

Lemma append_stat_aligned (s : Stat) (a : Stats) : aligned a → aligned (append_stat s a).
Proof.
  unfold aligned, append_stat. cbn. rewrite !length_app. cbn.
  intros (? & ? & ? & ? & ?). split_and!; lia.
Qed.

Lemma append_stat_length (s : Stat) (a : Stats) :
  length (conf (append_stat s a)) = S (length (conf a)).
Proof. unfold append_stat. cbn. rewrite length_app. cbn. lia. Qed.

(** Everything a processed sample leaves behind, apart from the record it
    appends. *)
Lemma update_sample_effects (batch : Batch) (v v' : Validator) (si : nat)
    (pred pred' : Tensor2) (proto : Proto) :
  update_sample G O batch v si pred proto = Some (v', pred') →
  (args v' = args v ∧ iouv v' = iouv v ∧ is_coco v' = is_coco v ∧ batch_i v' = batch_i v
   ∧ metrics_keys v' = metrics_keys v ∧ process v' = process v)
  ∧ seen v' = S (seen v)
  ∧ (stats v' = stats v ∨ ∃ s, stats v' = append_stat s (stats v))
  ∧ events v `prefix_of` events v'
  ∧ jdict v `prefix_of` jdict v'
  ∧ plot_masks v `prefix_of` plot_masks v'
  ∧ (plots (args v) = false → save_txt (args v) = false → events v' = events v)
  ∧ (save_json (args v) = false → jdict v' = jdict v)
  ∧ (plots (args v) = false ∨ 3 ≤ batch_i v → plot_masks v' = plot_masks v)
  ∧ length (plot_masks v') ≤ S (length (plot_masks v))
  ∧ (Forall (λ m, length (planes m) ≤ 300) (plot_masks v) →
     Forall (λ m, length (planes m) ≤ 300) (plot_masks v'))
  ∧ pred' = (if single_cls (args v) then zero_class pred else pred).
Proof.
  intros H. unfold update_sample in H.
  destruct (_prepare_batch _ _ _ _) as [pb|]; [|done]. cbn [mbind option_bind] in H.
  destruct (decide (length pred = 0)) as [Hz|Hnz].
  - destruct pred; [|done].
    destruct (decide (length (pb_cls pb) = 0)); simplify_eq.
    + split_and!; try done; eauto; by destruct (single_cls (args v)).
    + destruct v as [[sj stx scf scl om pl] thr coco bi keys pr pms st sn jd ev].
      cbn. destruct pl; cbn; split_and!; try done; eauto using prefix_app_r;
        by destruct scl.
  - destruct (if single_cls _ then _ else _) as [pred1|] eqn:Hset; [|done].
    cbn [mbind option_bind] in H.
    assert (pred1 = if single_cls (args v) then zero_class pred else pred) as Hp1.
    { cbn [args set_seen] in Hset. destruct (single_cls (args v)); [|by simplify_eq].
      by apply set_col_inv in Hset as [-> _]. }
    clear Hset.
    destruct (_prepare_pred _ _ _ _ _) as [[predn pm]|]; [|done].
    cbn [mbind option_bind] in H.
    destruct (col 4 predn) as [conf|]; [|done]. cbn [mbind option_bind] in H.
    destruct (col 5 predn) as [pcls|]; [|done]. cbn [mbind option_bind] in H.
    destruct (if decide _ then _ else _) as [[tp tpm]|]; [|done].
    cbn [mbind option_bind] in H.
    destruct v as [[sj stx scf scl om pl] thr coco bi keys pr pms st sn jd ev].
    cbn in H, Hp1. cbn.
    match type of H with
    | context [@bool_decide ?P ?i] => destruct (@bool_decide P i) eqn:Hb
    end;
      [apply bool_decide_eq_true in Hb|apply bool_decide_eq_false in Hb];
      destruct pl, sj, stx; cbn in H;
      destruct (im_file batch !! si), (ratio_pad batch !! si); cbn in H;
      simplify_eq; cbn; cbn in Hb;
      (split; [by split_and!|]; split_and!;
       [done|by right; eexists|
        first [done|repeat apply prefix_app_r; done]|
        first [done|repeat apply prefix_app_r; done]|
        first [done|repeat apply prefix_app_r; done]|
        by intros|by intros|
        intros [?|?]; first [done|exfalso; lia]|
        rewrite ?length_app; cbn; lia|
        first [done|intros Hall; apply Forall_app; split; [done|];
                    apply Forall_singleton; cbn; rewrite length_take; lia]|
        done]).
Qed.

End SampleEffects.

(** ** What a batch changes *)

Section BatchEffects.

Context (G : Geometry) (O : Ops).

Lemma stats_prefix_refl (a : Stats) : stats_prefix a a.
Proof. unfold stats_prefix. by split_and!. Qed.

Lemma stats_prefix_trans (a b c : Stats) :
  stats_prefix a b → stats_prefix b c → stats_prefix a c.
Proof.
  unfold stats_prefix. intros (? & ? & ? & ? & ? & ?) (? & ? & ? & ? & ? & ?).
  split_and!; by etrans.
Qed.

Lemma zip_fst_take {A B} (l : list A) (k : list B) : (zip l k).*1 = take (length k) l.
Proof.
  revert k. induction l as [|x l IH]; intros [|y k]; cbn; try done.
  by rewrite IH.
Qed.

Lemma update_loop_effects (batch : Batch) (l : list (Tensor2 * Proto)) (v v' : Validator)
    (si : nat) (ps : list Tensor2) :
  update_loop G O batch v si l = Some (v', ps) →
  (args v' = args v ∧ iouv v' = iouv v ∧ is_coco v' = is_coco v ∧ batch_i v' = batch_i v
   ∧ metrics_keys v' = metrics_keys v ∧ process v' = process v)
  ∧ seen v' = seen v + length l
  ∧ stats_prefix (stats v) (stats v')
  ∧ length (conf (stats v')) ≤ length (conf (stats v)) + length l
  ∧ (aligned (stats v) → aligned (stats v'))
  ∧ events v `prefix_of` events v'
  ∧ jdict v `prefix_of` jdict v'
  ∧ plot_masks v `prefix_of` plot_masks v'
  ∧ (plots (args v) = false → save_txt (args v) = false → events v' = events v)
  ∧ (save_json (args v) = false → jdict v' = jdict v)
  ∧ (plots (args v) = false ∨ 3 ≤ batch_i v → plot_masks v' = plot_masks v)
  ∧ length (plot_masks v') ≤ length (plot_masks v) + length l
  ∧ (Forall (λ m, length (planes m) ≤ 300) (plot_masks v) →
     Forall (λ m, length (planes m) ≤ 300) (plot_masks v'))
  ∧ ps = (λ p, if single_cls (args v) then zero_class p else p) <$> l.*1.
Proof.
  revert v si ps. induction l as [|[pred proto] l IH]; intros v si ps H.
  - cbn in H. simplify_eq. cbn.
    split; [by split_and!|].
    split_and!; try done; try lia; apply stats_prefix_refl.
  - cbn [update_loop] in H.
    destruct (update_sample _ _ _ _ _ _ _) as [[v1 pred1]|] eqn:H1; [|done].
    cbn [mbind option_bind] in H.
    destruct (update_loop _ _ _ _ _ _) as [[v2 ps2]|] eqn:H2; [|done].
    cbn in H. simplify_eq.
    apply update_sample_effects in H1
      as ((Ha & Hi & Hc & Hb & Hk & Hp) & Hseen & Hst & Hev & Hjd & Hpm & Hev0 & Hjd0 & Hpm0
          & Hpml & Hpmf & Hpred).
    apply IH in H2
      as ((Ha' & Hi' & Hc' & Hb' & Hk' & Hp') & Hseen' & Hst' & Hlen' & Hal' & Hev' & Hjd'
          & Hpm' & Hev0' & Hjd0' & Hpm0' & Hpml' & Hpmf' & Hps').
    rewrite Ha, ?Hb in *. cbn [length fmap list_fmap fst].
    split; [split_and!; congruence|]. split_and!.
    + lia.
    + eapply stats_prefix_trans; [|exact Hst'].
      destruct Hst as [->|[s ->]]; [apply stats_prefix_refl|apply append_stat_prefix].
    + destruct Hst as [Hst|[s Hst]]; rewrite Hst in Hlen'; [lia|].
      rewrite append_stat_length in Hlen'. lia.
    + intros Hal. apply Hal'.
      destruct Hst as [->|[s ->]]; [done|by apply append_stat_aligned].
    + by etrans.
    + by etrans.
    + by etrans.
    + intros Hpl Htx. rewrite Hev0' by done. by apply Hev0.
    + intros Hsj. rewrite Hjd0' by done. by apply Hjd0.
    + intros Hcond. rewrite Hpm0' by done. by apply Hpm0.
    + lia.
    + auto.
    + by rewrite Hpred, Hps'.
Qed.

End BatchEffects.

(** ** Properties of [update_metrics] beyond one sample *)

Section UpdateMetricsProperties.

Context (G : Geometry) (O : Ops).

(** X1.  The loop visits [min(len(preds[0]), len(preds[1]))] samples: [seen]
    grows by that number, as many detection tensors are gone through, and
    the configuration and the bound decoder are as before. *)
Theorem update_metrics_counts (preds : list Tensor2 * list Proto) (batch : Batch)
    (v v' : Validator) (ps : list Tensor2) :
  update_metrics G O preds batch v = Some (v', ps) →
  seen v' = seen v + length preds.1 `min` length preds.2
  ∧ length ps = length preds.1 `min` length preds.2
  ∧ args v' = args v ∧ iouv v' = iouv v ∧ process v' = process v
  ∧ is_coco v' = is_coco v ∧ batch_i v' = batch_i v ∧ metrics_keys v' = metrics_keys v.
Proof.
  intros H. unfold update_metrics in H.
  apply update_loop_effects in H
    as ((Ha & Hi & Hc & Hb & Hk & Hp) & Hseen & _ & _ & _ & _ & _ & _ & _ & _ & _ & _ & _ & Hps).
  rewrite length_zip in Hseen. split_and!; try done.
  by rewrite Hps, length_fmap, length_fmap, length_zip.
Qed.

(** X2.  The accumulation is append-only: what the statistics, the exported
    entries, the plot buffer and the outside calls held before a batch is
    still there, in place, after it; and a batch adds at most one record per
    sample. *)
Theorem update_metrics_append_only (preds : list Tensor2 * list Proto) (batch : Batch)
    (v v' : Validator) (ps : list Tensor2) :
  update_metrics G O preds batch v = Some (v', ps) →
  stats_prefix (stats v) (stats v')
  ∧ jdict v `prefix_of` jdict v'
  ∧ events v `prefix_of` events v'
  ∧ plot_masks v `prefix_of` plot_masks v'
  ∧ length (conf (stats v'))
    ≤ length (conf (stats v)) + length preds.1 `min` length preds.2.
Proof.
  intros H. unfold update_metrics in H.
  apply update_loop_effects in H
    as (_ & _ & Hst & Hlen & _ & Hev & Hjd & Hpm & _).
  rewrite length_zip in Hlen. by split_and!.
Qed.

(** X3.  The six lists of the statistics stay in step: if they had one length
    before the batch, they have one length after it. *)
Theorem update_metrics_keeps_alignment (preds : list Tensor2 * list Proto) (batch : Batch)
    (v v' : Validator) (ps : list Tensor2) :
  aligned (stats v) →
  update_metrics G O preds batch v = Some (v', ps) →
  aligned (stats v').
Proof.
  intros Hal H. unfold update_metrics in H.
  apply update_loop_effects in H as (_ & _ & _ & _ & Hal' & _). auto.
Qed.

(** X4.  Nothing is exported unless [save_json] is set, and nothing outside the
    validator is called unless [plots] or [save_txt] is set. *)
Theorem update_metrics_quiet (preds : list Tensor2 * list Proto) (batch : Batch)
    (v v' : Validator) (ps : list Tensor2) :
  update_metrics G O preds batch v = Some (v', ps) →
  (save_json (args v) = false → jdict v' = jdict v)
  ∧ (plots (args v) = false → save_txt (args v) = false → events v' = events v).
Proof.
  intros H. unfold update_metrics in H.
  apply update_loop_effects in H
    as (_ & _ & _ & _ & _ & _ & _ & _ & Hev & Hjd & _). by split.
Qed.

(** X5.  The plot buffer takes at most one entry per sample, of at most 300
    masks each, and none at all when [plots] is off or from the fourth batch
    on. *)
Theorem plot_buffer_bounded (preds : list Tensor2 * list Proto) (batch : Batch)
    (v v' : Validator) (ps : list Tensor2) :
  update_metrics G O preds batch v = Some (v', ps) →
  length (plot_masks v') ≤ length (plot_masks v) + length preds.1 `min` length preds.2
  ∧ (Forall (λ m, length (planes m) ≤ 300) (plot_masks v) →
     Forall (λ m, length (planes m) ≤ 300) (plot_masks v'))
  ∧ (plots (args v) = false ∨ 3 ≤ batch_i v → plot_masks v' = plot_masks v).
Proof.
  intros H. unfold update_metrics in H.
  apply update_loop_effects in H
    as (_ & _ & _ & _ & _ & _ & _ & _ & _ & _ & Hpm0 & Hpml & Hpmf & _).
  rewrite length_zip in Hpml. by split_and!.
Qed.

(** X6.  The caller's detections: outside single-class runs the loop leaves
    them as they are; in a single-class run every tensor it goes through
    comes back with its class column zeroed, and nothing else changed. *)
Theorem update_metrics_predictions (preds : list Tensor2 * list Proto) (batch : Batch)
    (v v' : Validator) (ps : list Tensor2) :
  update_metrics G O preds batch v = Some (v', ps) →
  (single_cls (args v) = false → ps = take (length preds.2) preds.1)
  ∧ (single_cls (args v) = true → ps = zero_class <$> take (length preds.2) preds.1)
  ∧ Forall2 (Forall2 (λ r r' : Row, length r' = length r ∧ ∀ k, k ≠ 5 → r' !! k = r !! k))
      (take (length preds.2) preds.1) ps.
Proof.
  intros H. unfold update_metrics in H.
  apply update_loop_effects in H as (_ & _ & _ & _ & _ & _ & _ & _ & _ & _ & _ & _ & _ & Hps).
  rewrite zip_fst_take in Hps. subst ps.
  destruct (single_cls (args v)).
  - split_and!; [done|done|].
    apply Forall2_fmap_r, Forall_Forall2_diag, Forall_true. intros t.
    unfold zero_class. apply Forall2_fmap_r, Forall_Forall2_diag, Forall_true.
    intros r. split; [apply length_insert|].
    intros k Hk. by apply list_lookup_insert_ne.
  - split_and!; [by rewrite list_fmap_id|done|].
    rewrite list_fmap_id. apply Forall_Forall2_diag, Forall_true. intros t.
    by apply Forall_Forall2_diag, Forall_true.
Qed.

End UpdateMetricsProperties.

(** ** When [update_metrics] completes and when it raises *)

Section Completion.

Context (G : Geometry) (O : Ops).

Lemma update_sample_Some (batch : Batch) (v : Validator) (si : nat) (pred : Tensor2)
    (proto : Proto) (d : MaskDecoder) :
  batch_ok (overlap_mask (args v)) si batch →
  Forall (λ r : Row, 6 ≤ length r) pred →
  process v = Some d →
  is_Some (update_sample G O batch v si pred proto).
Proof.
  intros Hok Harity Hproc.
  destruct (_prepare_batch_Some O v si batch Hok)
    as (pb & Hpb & Hcls & _ & _ & Hrp & _ & Hov).
  destruct (decide (pred = [])) as [->|Hne].
  - by rewrite (update_sample_no_pred G O batch v si proto pb).
  - assert (is_Some (im_file batch !! si)) as Hfile by apply Hok.
    assert (overlap_mask (args v) = true → ∃ raster, planes (pb_masks pb) = [raster]) as Hov'.
    { intros Ho. destruct (Hov Ho) as (r & _ & Hr). eauto. }
    destruct (update_sample_pred G O batch v si pred proto pb d
                Hne Hpb Hrp Hfile Hov' Harity Hproc) as (v' & ? & ? & ? & ? & ? & -> & _).
    done.
Qed.

Lemma update_loop_Some (batch : Batch) (l : list (Tensor2 * Proto)) (v : Validator)
    (si : nat) (d : MaskDecoder) :
  (∀ i, i < length l → batch_ok (overlap_mask (args v)) (si + i) batch) →
  Forall (λ x : Tensor2 * Proto, Forall (λ r : Row, 6 ≤ length r) x.1) l →
  process v = Some d →
  is_Some (update_loop G O batch v si l).
Proof.
  revert v si. induction l as [|[pred proto] l IH]; intros v si Hok Harity Hproc; [done|].
  apply Forall_cons in Harity as [Hpred Harity]. cbn [update_loop].
  destruct (update_sample_Some batch v si pred proto d) as [[v1 pred1] H1]; [|done..|].
  { replace si with (si + 0) by lia. apply Hok. cbn. lia. }
  rewrite H1. cbn [mbind option_bind].
  apply update_sample_effects in H1 as ((Ha & _ & _ & _ & _ & Hp) & _).
  destruct (IH v1 (S si)) as [[v2 ps] H2]; [|done|congruence|].
  { intros i Hi. rewrite Ha. replace (S si + i) with (si + S i) by lia.
    apply Hok. cbn. lia. }
  by rewrite H2.
Qed.

(** X7.  After [init_metrics], with nothing to export ([save_json] and
    [save_txt] off) and kernels that return, a batch whose fields are
    aligned for every sample and whose detections have their six leading
    columns is processed to the end; the statistics then hold at most one
    record per sample and their six lists have one length. *)
Theorem update_metrics_after_init (super_init_metrics : Validator → Validator)
    (v : Validator) (preds : list Tensor2 * list Proto) (batch : Batch) :
  save_json (args (super_init_metrics v)) = false →
  save_txt (args (super_init_metrics v)) = false →
  (∀ i, i < length preds.1 `min` length preds.2 →
        batch_ok (overlap_mask (args (super_init_metrics v))) i batch) →
  Forall (Forall (λ r : Row, 6 ≤ length r)) preds.1 →
  ∃ v' ps,
    update_metrics G O preds batch (init_metrics super_init_metrics v) = Some (v', ps)
    ∧ process (init_metrics super_init_metrics v) = Some ProcessMaskObbSeg
    ∧ jdict v' = jdict (super_init_metrics v)
    ∧ aligned (stats v')
    ∧ length (conf (stats v')) ≤ length preds.1 `min` length preds.2
    ∧ seen v' = seen (super_init_metrics v) + length preds.1 `min` length preds.2.
Proof.
  intros Hsj Htx Hok Harity.
  set (v1 := init_metrics super_init_metrics v).
  assert (args v1 = args (super_init_metrics v)
          ∧ seen v1 = seen (super_init_metrics v)
          ∧ stats v1 = empty_stats
          ∧ process v1 = Some ProcessMaskObbSeg
          ∧ jdict v1 = jdict (super_init_metrics v)) as (Ha & Hs & Hst & Hd & Hj).
  { subst v1. unfold init_metrics. cbn. rewrite Hsj. cbn. rewrite Hsj, Htx. by split_and!. }
  destruct (update_loop_Some batch (zip preds.1 preds.2) v1 0 ProcessMaskObbSeg)
    as [[v' ps] H].
  { intros i Hi. rewrite length_zip in Hi. rewrite Ha. by apply Hok. }
  { apply Forall_forall. intros [p q] Hin. apply elem_of_zip_l in Hin.
    by eapply Forall_forall in Harity. }
  { done. }
  exists v', ps. split; [exact H|]. split; [exact Hd|].
  apply update_loop_effects in H
    as (_ & Hseen & _ & Hlen & Hal & _ & _ & _ & _ & Hjd & _).
  rewrite length_zip in Hseen, Hlen. rewrite Hst in Hlen, Hal. cbn in Hlen.
  split_and!; [|by apply Hal; split_and!|lia|lia].
  rewrite Hjd by (by rewrite Ha). exact Hj.
Qed.

(** X8.  Before [init_metrics] no decoder is bound: a sample that has
    predictions raises, whereas a sample without predictions of an aligned
    batch is still processed. *)
Theorem no_decoder_bound (batch : Batch) (v : Validator) (si : nat) (proto : Proto) :
  process v = None →
  (∀ pred, pred ≠ [] → update_sample G O batch v si pred proto = None)
  ∧ (batch_ok (overlap_mask (args v)) si batch →
     is_Some (update_sample G O batch v si [] proto)).
Proof.
  intros Hp. split.
  - intros pred Hne. unfold update_sample.
    destruct (_prepare_batch _ _ _ _) as [pb|]; [|done]. cbn [mbind option_bind].
    destruct (decide (length pred = 0)) as [Hz|_]; [by destruct pred|].
    destruct (if single_cls _ then _ else _) as [pred1|]; [|done]. cbn [mbind option_bind].
    unfold _prepare_pred. destruct (scale_boxes _ _ _ _ _); [|done].
    cbn [mbind option_bind process set_seen]. by rewrite Hp.
  - intros Hok. destruct (_prepare_batch_Some O v si batch Hok) as (pb & Hpb & _).
    by rewrite (update_sample_no_pred G O batch v si proto pb).
Qed.

(** X9.  Detections need their six leading columns: a tensor with a row of
    fewer than six columns makes the sample raise. *)
Theorem short_rows_raise (batch : Batch) (v : Validator) (si : nat) (pred : Tensor2)
    (proto : Proto) :
  Exists (λ r : Row, length r < 6) pred →
  update_sample G O batch v si pred proto = None.
Proof.
  intros Hex.
  destruct (update_sample G O batch v si pred proto) as [[v' pred']|] eqn:H; [|done].
  exfalso. unfold update_sample in H.
  destruct (_prepare_batch _ _ _ _) as [pb|]; [|done]. cbn [mbind option_bind] in H.
  destruct (decide (length pred = 0)) as [Hz|_].
  { destruct pred; [|done]. by apply Exists_nil in Hex. }
  destruct (if single_cls _ then _ else _) as [pred1|] eqn:Hset; [|done].
  cbn [mbind option_bind] in H.
  assert (Forall2 (λ r r1 : Row, length r1 = length r) pred pred1) as Hlen1.
  { cbn [args set_seen] in Hset. destruct (single_cls (args v)).
    - apply set_col_inv in Hset as [-> _].
      apply Forall2_fmap_r, Forall_Forall2_diag, Forall_true. intros r. apply length_insert.
    - simplify_eq. by apply Forall_Forall2_diag, Forall_true. }
  unfold _prepare_pred in H.
  destruct (scale_boxes _ _ _ _ _) as [predn|] eqn:Hsc; [|done].
  cbn [mbind option_bind] in H.
  destruct (process _); [|done]. cbn [mbind option_bind] in H.
  destruct (col 4 predn) as [conf|]; [|done]. cbn [mbind option_bind] in H.
  destruct (col 5 predn) as [pcls|] eqn:Hc5; [|done].
  apply scale_boxes_inv in Hsc. apply mapM_Some_1 in Hc5.
  clear H Hset. revert pred1 predn pcls Hlen1 Hsc Hc5.
  induction Hex as [r pred Hr|r pred _ IH]; intros pred1 predn pcls Hlen1 Hsc Hc5.
  - apply Forall2_cons_inv_l in Hlen1 as (r1 & pred1' & Hr1 & _ & ->).
    apply Forall2_cons_inv_l in Hsc as (rn & predn' & (Hrn & _) & _ & ->).
    apply Forall2_cons_inv_l in Hc5 as (x & pcls' & Hx & _ & ->).
    apply lookup_lt_Some in Hx. lia.
  - apply Forall2_cons_inv_l in Hlen1 as (r1 & pred1' & _ & Hlen1 & ->).
    apply Forall2_cons_inv_l in Hsc as (rn & predn' & _ & Hsc & ->).
    apply Forall2_cons_inv_l in Hc5 as (x & pcls' & _ & Hc5 & ->).
    eauto.
Qed.

End Completion.

(** ** Properties of [_prepare_batch] *)

Section PrepareBatchProperties.

Context (O : Ops).

Lemma masked_length_filter {A} (si : nat) (bi : list nat) (xs : list A) :
  length bi = length xs →
  length (masked ((λ b, bool_decide (b = si)) <$> bi) xs)
  = length (filter (λ b, b = si) bi).
Proof.
  unfold masked. revert xs. induction bi as [|b bi IH]; intros [|x xs] H; try done.
  cbn in H. cbn [fmap list_fmap zip zip_with omap list_omap fst snd].
  rewrite filter_cons. case_bool_decide; case_decide; try done; cbn; rewrite IH; auto.
Qed.

Lemma mul_imgsz_inv (imgsz : nat * nat) (t t' : Tensor2) :
  mul_imgsz imgsz t = Some t' →
  Forall (λ r : Row, 4 ≤ length r) t ∧ Forall (λ r : Row, 4 ≤ length r) t'
  ∧ length t' = length t.
Proof.
  intros H. pose proof (length_mapM _ _ _ H) as Hlen. apply mapM_Some_1 in H.
  split_and!; [| |done].
  - eapply Forall2_Forall_l; [exact H|]. apply Forall_true. intros r' r Hr.
    destruct r as [|a [|b [|c [|d rest]]]]; try done. cbn. lia.
  - eapply Forall2_Forall_r; [exact H|]. apply Forall_true. intros r r' Hr.
    destruct r as [|a [|b [|c [|d rest]]]]; try done. simplify_eq. cbn. lia.
Qed.

(** X10.  [_prepare_batch] returns exactly on the batches that are aligned for
    the sample; on any other it raises. *)
Theorem _prepare_batch_defined (v : Validator) (si : nat) (batch : Batch) :
  is_Some (_prepare_batch O v si batch) ↔ prepare_ok (overlap_mask (args v)) si batch.
Proof.
  unfold prepare_ok, labels. split.
  - intros [pb H]. unfold _prepare_batch, bool_index in H. cbv zeta in H.
    set (idx := sample_mask si batch) in *.
    assert (length idx = length (batch_idx batch)) as Hidx
      by (unfold idx, sample_mask; apply length_fmap).
    destruct (decide (length idx = length (cls batch))) as [Hc|]; [|done].
    cbn [mbind option_bind] in H.
    destruct (decide (length idx = length (bboxes batch))) as [Hb|]; [|done].
    cbn [mbind option_bind] in H.
    destruct (ori_shape batch !! si) as [os|]; [|done]. cbn [mbind option_bind] in H.
    destruct (ratio_pad batch !! si) as [rp|]; [|done]. cbn [mbind option_bind] in H.
    destruct (if decide (length (masked idx (cls batch)) = 0) then _ else _)
      as [bbox|] eqn:Hbb; [|done].
    cbn [mbind option_bind] in H.
    destruct (if overlap_mask (args v) then _ else _) as [gp|] eqn:Hgp; [|done].
    split_and!; [congruence|congruence|done|done| |].
    + intros Hne. rewrite decide_False in Hbb by (by destruct (masked idx (cls batch))).
      destruct (mul_imgsz _ _) as [b1|] eqn:Hm; [|done].
      by apply mul_imgsz_inv in Hm as [? _].
    + destruct (overlap_mask (args v)).
      * destruct (planes (masks batch) !! si); [done|done].
      * case_decide; [congruence|done].
  - intros (Hc & Hb & [os Hos] & [rp Hrp] & Har & Hm).
    unfold _prepare_batch, bool_index. cbv zeta.
    set (idx := sample_mask si batch) in *.
    assert (length idx = length (batch_idx batch)) as Hidx
      by (unfold idx, sample_mask; apply length_fmap).
    rewrite (decide_True (P := length idx = length (cls batch))) by congruence. cbn.
    rewrite (decide_True (P := length idx = length (bboxes batch))) by congruence. cbn.
    rewrite Hos, Hrp. cbn.
    assert (∃ bbox,
      (if decide (length (masked idx (cls batch)) = 0) then Some (masked idx (bboxes batch))
       else mul_imgsz (img_hw batch) (masked idx (bboxes batch))
            ≫= λ bbox, scale_boxes O (img_hw batch) bbox os rp) = Some bbox) as (bbox & ->).
    { case_decide as Hz; [eauto|].
      destruct (mul_imgsz_Some (img_hw batch) (masked idx (bboxes batch))) as (b1 & -> & Hb1).
      { apply Har. by destruct (masked idx (cls batch)). }
      cbn. by apply scale_boxes_Some. }
    cbn. destruct (overlap_mask (args v)).
    + destruct Hm as [raster ->]. by cbn.
    + rewrite decide_True by congruence. by cbn.
Qed.

(** X11.  What [_prepare_batch] hands on: the classes of the labels whose batch
    index is [si], one box per such label, the image size of the batch, and
    either the one raster of the image (overlap encoding) or one mask per
    label.  Without labels the boxes are an empty tensor. *)
Theorem _prepare_batch_counts (v : Validator) (si : nat) (batch : Batch) (pb : PBatch) :
  _prepare_batch O v si batch = Some pb →
  pb_cls pb = labels si batch
  ∧ length (pb_cls pb) = length (filter (λ b, b = si) (batch_idx batch))
  ∧ length (pb_bbox pb) = length (pb_cls pb)
  ∧ pb_imgsz pb = img_hw batch
  ∧ ori_shape batch !! si = Some (pb_ori_shape pb)
  ∧ ratio_pad batch !! si = Some (pb_ratio_pad pb)
  ∧ mask_hw (pb_masks pb) = mask_hw (masks batch)
  ∧ (if overlap_mask (args v)
     then ∃ raster, planes (masks batch) !! si = Some raster ∧ planes (pb_masks pb) = [raster]
     else length (planes (pb_masks pb)) = length (pb_cls pb)).
Proof.
  intros H. unfold _prepare_batch, bool_index in H. cbv zeta in H. unfold labels.
  set (idx := sample_mask si batch) in *.
  assert (length idx = length (batch_idx batch)) as Hidx
    by (unfold idx, sample_mask; apply length_fmap).
  destruct (decide (length idx = length (cls batch))) as [Hc|]; [|done].
  cbn [mbind option_bind] in H.
  destruct (decide (length idx = length (bboxes batch))) as [Hb|]; [|done].
  cbn [mbind option_bind] in H.
  destruct (ori_shape batch !! si) as [os|]; [|done]. cbn [mbind option_bind] in H.
  destruct (ratio_pad batch !! si) as [rp|]; [|done]. cbn [mbind option_bind] in H.
  destruct (if decide (length (masked idx (cls batch)) = 0) then _ else _)
    as [bbox|] eqn:Hbb; [|done].
  cbn [mbind option_bind] in H.
  destruct (if overlap_mask (args v) then _ else _) as [gp|] eqn:Hgp; [|done].
  cbn in H. simplify_eq. cbn.
  assert (length bbox = length (masked idx (cls batch))) as Hlen.
  { rewrite (masked_length idx (cls batch) (bboxes batch)) by congruence.
    destruct (decide (length (masked idx (cls batch)) = 0)) as [Hz|Hz]; [by simplify_eq|].
    destruct (mul_imgsz _ _) as [b1|] eqn:Hm; [|done]. cbn in Hbb.
    apply mul_imgsz_inv in Hm as (_ & _ & <-). by eapply scale_boxes_length. }
  split_and!; try done.
  - unfold idx, sample_mask. apply masked_length_filter. congruence.
  - destruct (overlap_mask (args v)).
    + destruct (planes (masks batch) !! si) as [raster|]; [|done].
      cbn in Hgp. simplify_eq. eauto.
    + case_decide as Hm; [|done]. simplify_eq.
      apply masked_length. congruence.
Qed.

End PrepareBatchProperties.

(** ** When [_process_batch] returns, and what it reads *)

Section ProcessBatchProperties.

Context (G : Geometry) (thr : list Q).





(** X13.  A detection row of exactly six columns has no angle column: the last
    column that the box path hands to [batch_probiou] as the angle is the
    class id, the same column that drives the class gating. *)
Theorem six_columns_class_as_angle (det gtb : Tensor2) (gt_cls : list Q) (pm gm : option Masks)
    (overlap : bool) :
  Forall (λ r : Row, length r = 6) det →
  ∃ cls boxes,
    col 5 det = Some cls
    ∧ Forall2 box_of_6_columns det boxes
    ∧ Forall2 (λ (b : Row) (k : Q), b !! 4 = Some k) boxes cls
    ∧ _process_batch G thr det gtb gt_cls pm gm overlap false
      = Some (match_predictions thr cls gt_cls (batch_probiou G gtb boxes)).
Proof.
  intros H.
  assert (∃ cls, col 5 det = Some cls
                 ∧ Forall2 box_of_6_columns det (cat1 (cols_to 4 det) (last_col det))
                 ∧ Forall2 (λ (b : Row) (k : Q), b !! 4 = Some k)
                     (cat1 (cols_to 4 det) (last_col det)) cls) as (cls & Hc & Hb & Hk).
  { unfold col, cat1, cols_to, last_col. induction H as [|r det Hr _ (cls & Hc & Hb & Hk)].
    - exists []. by split_and!; [|constructor|constructor].
    - destruct r as [|x [|y [|w [|h [|c [|k [|]]]]]]]; try done.
      exists (k :: cls). cbn. rewrite Hc. cbn. split_and!; [done| |].
      + constructor; [|exact Hb]. by exists x, y, w, h, c, k.
      + constructor; [done|exact Hk]. }
  exists cls, (cat1 (cols_to 4 det) (last_col det)). split_and!; [done..|].
  unfold _process_batch. cbn. by rewrite Hc.
Qed.

End ProcessBatchProperties.

Lemma six_columns_class_as_angle_witness :
  Forall (λ r : Row, length r = 6) [[1; 2; 3; 4; 1 # 2; 9]%Q]
  ∧ ∃ cls boxes,
      col 5 [[1; 2; 3; 4; 1 # 2; 9]%Q] = Some cls
      ∧ Forall2 box_of_6_columns [[1; 2; 3; 4; 1 # 2; 9]%Q] boxes
      ∧ Forall2 (λ (b : Row) (k : Q), b !! 4 = Some k) boxes cls
      ∧ _process_batch sample_geometry [1 # 2]%Q [[1; 2; 3; 4; 1 # 2; 9]%Q] [] [9%Q] None None
          false false
        = Some (match_predictions [1 # 2]%Q cls [9%Q] (batch_probiou sample_geometry [] boxes)).
Proof.
  split; [by repeat constructor|].
  apply (six_columns_class_as_angle sample_geometry [1 # 2]%Q [[1; 2; 3; 4; 1 # 2; 9]%Q]). by repeat constructor.
Defined.

(** ** What [_prepare_pred] reads of the detections *)

Section PreparePredProperties.

Context (O : Ops).

Lemma scale_boxes_zero_class (s1 s0 : nat * nat) (rp : RatioPad) (t : Tensor2) :
  scale_boxes O s1 (zero_class t) s0 rp = zero_class <$> scale_boxes O s1 t s0 rp.
Proof.
  unfold scale_boxes, zero_class. induction t as [|r t IH]; [done|].
  rewrite fmap_cons. cbn [mapM]. rewrite IH. clear IH.
  destruct r as [|x [|y [|w [|h [|c [|k rest]]]]]]; try done;
    cbn; destruct (scale_box O s1 s0 rp (x, y, w, h)) as [[[x' y'] w'] h']; cbn;
    by destruct (mapM _ t).
Qed.

Lemma cols_to_zero_class (t : Tensor2) : cols_to 4 (zero_class t) = cols_to 4 t.
Proof.
  unfold cols_to, zero_class. rewrite <- list_fmap_compose. apply list_fmap_ext.
  intros _ r _. cbn. apply take_insert_ge. lia.
Qed.

Lemma cols_from_to_last_zero_class (t : Tensor2) :
  cols_from_to_last 6 (zero_class t) = cols_from_to_last 6 t.
Proof.
  unfold cols_from_to_last, zero_class. rewrite <- list_fmap_compose. apply list_fmap_ext.
  intros _ r _. cbn. rewrite length_insert.
  destruct (decide (5 < length r - 1)) as [H|H].
  - rewrite take_insert_lt by done. apply drop_insert_lt. lia.
  - rewrite take_insert_ge by lia. done.
Qed.

Lemma last_col_zero_class (t : Tensor2) :
  Forall (λ r : Row, 7 ≤ length r) t → last_col (zero_class t) = last_col t.
Proof.
  intros H. unfold last_col, zero_class. rewrite <- list_fmap_compose.
  apply Forall_fmap_ext_1. eapply Forall_impl; [exact H|].
  intros r Hr. cbn in *. rewrite length_insert. apply drop_insert_lt. lia.
Qed.

(** X14.  With an angle column behind the class column, overwriting the class
    column with 0 (as [update_metrics] does under [single_cls], before it
    calls [_prepare_pred]) does not reach the mask decoder: the decoded
    masks are the same, and the rescaled detections differ in the class
    column only. *)
Theorem _prepare_pred_ignores_class (v : Validator) (pred : Tensor2) (pb : PBatch)
    (proto : Proto) :
  Forall (λ r : Row, 7 ≤ length r) pred →
  _prepare_pred O v (zero_class pred) pb proto
  = (λ x : Tensor2 * Masks, (zero_class x.1, x.2)) <$> _prepare_pred O v pred pb proto.
Proof.
  intros H. unfold _prepare_pred.
  rewrite scale_boxes_zero_class, cols_to_zero_class, cols_from_to_last_zero_class,
    (last_col_zero_class _ H).
  destruct (scale_boxes O _ pred _ _) as [predn|]; [|done]. cbn.
  by destruct (process v).
Qed.

(** X15.  Detection rows of exactly six columns leave nothing between the class
    column and the last column: the decoder gets an empty coefficient row
    per detection, and boxes whose fifth entry is the class id. *)
Theorem _prepare_pred_six_columns (v : Validator) (pred : Tensor2) (pb : PBatch)
    (proto : Proto) (d : MaskDecoder) :
  Forall (λ r : Row, length r = 6) pred →
  process v = Some d →
  ∃ predn boxes,
    Forall2 box_of_6_columns pred boxes
    ∧ _prepare_pred O v pred pb proto
      = Some (predn, decoder O d proto ((λ _, []) <$> pred) boxes (pb_imgsz pb)).
Proof.
  intros H Hd. unfold _prepare_pred. rewrite Hd.
  destruct (scale_boxes_Some O (pb_imgsz pb) (pb_ori_shape pb) (pb_ratio_pad pb) pred)
    as [predn ->].
  { eapply Forall_impl; [exact H|]. intros r ->. lia. }
  exists predn, (cat1 (cols_to 4 pred) (last_col pred)). cbn. split.
  - clear Hd. unfold cat1, cols_to, last_col. induction H as [|r t Hr _ IH]; [constructor|].
    destruct r as [|x [|y [|w [|h [|c [|k [|]]]]]]]; try done.
    cbn. constructor; [|exact IH]. by exists x, y, w, h, c, k.
  - do 3 f_equal. unfold cols_from_to_last. apply Forall_fmap_ext_1.
    eapply Forall_impl; [exact H|]. intros r Hr.
    by destruct r as [|x [|y [|w [|h [|c [|k [|]]]]]]].
Qed.

End PreparePredProperties.

(** ** Running the COCO cross-check *)

Section EvalJsonProperties.

Lemma write_all_snoc (kvs : list (string * Q)) (k : string) (x : Q) (s : gmap string Q) :
  write_all (kvs ++ [(k, x)]) s = <[k:=x]> (write_all kvs s).
Proof. unfold write_all. by rewrite foldl_app. Qed.

Lemma write_all_absorb (kvs : list (string * Q)) (k : string) (x y : Q) (s : gmap string Q) :
  <[k:=x]> (write_all kvs (<[k:=y]> s)) = <[k:=x]> (write_all kvs s).
Proof.
  revert s. induction kvs as [|[k1 x1] kvs IH]; intros s.
  - cbn. apply insert_insert_eq.
  - cbn. fold (write_all kvs (<[k1:=x1]> (<[k:=y]> s))).
    fold (write_all kvs (<[k1:=x1]> s)).
    destruct (decide (k1 = k)) as [->|Hne].
    + by rewrite insert_insert_eq.
    + rewrite (insert_insert_ne s) by done. apply IH.
Qed.

Lemma write_all_idem (kvs : list (string * Q)) (s : gmap string Q) :
  write_all kvs (write_all kvs s) = write_all kvs s.
Proof.
  induction kvs as [|[k x] kvs IH] using rev_ind; [done|].
  by rewrite !write_all_snoc, write_all_absorb, IH.
Qed.

Lemma coco_loop_writes (keys : list string) (api : CocoApi) (l : list nat) :
  ∃ kvs e, ∀ s, coco_loop keys api l s = (write_all kvs s, e).
Proof.
  induction l as [|i l (kvs & e & IH)]; [by exists [], None|].
  cbn. destruct (coco_stats api i) as [a|e1]; [|by exists [], (Some e1)].
  unfold coco_update. destruct a as [|x0 [|x1 xs]]; try by exists [], (Some "ValueError").
  destruct (keys !! (i * 4 + 2 + 1)) as [k1|]; [|by exists [], (Some "IndexError")].
  destruct (keys !! (i * 4 + 2)) as [k0|]; [|by exists [], (Some "IndexError")].
  exists ((k1, x0) :: (k0, x1) :: kvs), e. intros s. by rewrite IH.
Qed.

(** X16.  Running [eval_json] again on the dictionary it returned, with
    pycocotools behaving as in the first run, changes nothing: the same
    dictionary comes back and the same lines are logged. *)
Theorem eval_json_idempotent (api : CocoApi) (v : Validator) (stats : gmap string Q) :
  eval_json api v (eval_json api v stats).1 = eval_json api v stats.
Proof.
  unfold eval_json. destruct (_ && _); [|done]. unfold coco_try.
  destruct (coco_load api); [|done].
  destruct (coco_loop_writes (metrics_keys v) api [0; 1]) as (kvs & e & H).
  rewrite (H stats). destruct e; cbv beta iota; cbn [fst]; by rewrite H, write_all_idem.
Qed.

(** X17.  An attempted cross-check ends without a warning exactly when
    pycocotools loads, both evaluators hand back at least two scores, and
    the metrics have at least eight keys; in every other case the failure
    is logged as a warning. *)
Theorem eval_json_runs_through (api : CocoApi) (v : Validator) (stats : gmap string Q) :
  coco_enabled v = true →
  ((eval_json api v stats).2 = [LogInfo "Evaluating pycocotools mAP"]
   ↔ coco_load api = Returns ()
     ∧ (∀ i, i < 2 → ∃ x0 x1 xs, coco_stats api i = Returns (x0 :: x1 :: xs))
     ∧ 8 ≤ length (metrics_keys v))
  ∧ ((eval_json api v stats).2 = [LogInfo "Evaluating pycocotools mAP"]
     ∨ ∃ e, (eval_json api v stats).2
            = [LogInfo "Evaluating pycocotools mAP";
               LogWarning ("pycocotools unable to run: " +:+ e)]).
Proof.
  intros He. rewrite (eval_json_enabled _ _ _ He). split; cycle 1.
  { destruct (coco_try _ _ _) as [s [e|]]; cbn; eauto. }
  unfold coco_try.
  destruct (coco_load api) as [[]|e] eqn:Hl; [|split; [done|by intros [? _]]].
  cbn [coco_loop].
  destruct (coco_stats api 0) as [a0|e0] eqn:H0; cycle 1.
  { split; [done|]. intros (_ & H & _). destruct (H 0) as (? & ? & ? & ?); [lia|congruence]. }
  unfold coco_update at 1.
  destruct a0 as [|x0 [|x1 xs]];
    try (split; [done|]; intros (_ & H & _); destruct (H 0) as (? & ? & ? & ?); [lia|congruence]).
  cbn [Nat.mul Nat.add].
  destruct (metrics_keys v !! 3) as [k3|] eqn:K3; cycle 1.
  { split; [done|]. intros (_ & _ & H). apply lookup_ge_None in K3. lia. }
  destruct (metrics_keys v !! 2) as [k2|] eqn:K2; cycle 1.
  { split; [done|]. intros (_ & _ & H). apply lookup_ge_None in K2. lia. }
  destruct (coco_stats api 1) as [a1|e1] eqn:H1; cycle 1.
  { split; [done|]. intros (_ & H & _). destruct (H 1) as (? & ? & ? & ?); [lia|congruence]. }
  unfold coco_update at 1.
  destruct a1 as [|y0 [|y1 ys]];
    try (split; [done|]; intros (_ & H & _); destruct (H 1) as (? & ? & ? & ?); [lia|congruence]).
  cbn [Nat.mul Nat.add].
  destruct (metrics_keys v !! 7) as [k7|] eqn:K7; cycle 1.
  { split; [done|]. intros (_ & _ & H). apply lookup_ge_None in K7. lia. }
  destruct (metrics_keys v !! 6) as [k6|] eqn:K6; cycle 1.
  { split; [done|]. intros (_ & _ & H). apply lookup_ge_None in K6. lia. }
  split; [intros _|done]. split_and!; [done| |].
  - intros [|[|i]] Hi; [eauto..|lia].
  - apply lookup_lt_Some in K7. lia.
Qed.

End EvalJsonProperties.

Lemma eval_json_runs_through_witness :
  coco_enabled coco_validator = true
  ∧ ((eval_json coco_runs coco_validator ∅).2 = [LogInfo "Evaluating pycocotools mAP"]
     ↔ coco_load coco_runs = Returns ()
       ∧ (∀ i, i < 2 → ∃ x0 x1 xs, coco_stats coco_runs i = Returns (x0 :: x1 :: xs))
       ∧ 8 ≤ length (metrics_keys coco_validator)).
Proof.
  split; [reflexivity|].
  apply (eval_json_runs_through coco_runs coco_validator ∅). reflexivity.
Defined.

(** ** The further statements on the sample data *)

Lemma sample_update_metrics :
  is_Some (update_metrics sample_geometry sample_ops ([det_2], [[]]) sample_batch
             (sample_validator false)).
Proof. vm_compute. eauto. Qed.

Lemma sample_update_metrics_single_cls :
  is_Some (update_metrics sample_geometry sample_ops ([det_2], [[]]) sample_batch
             (sample_validator true)).
Proof. vm_compute. eauto. Qed.

Lemma sample_aligned : aligned (stats (sample_validator false)).
Proof. by split_and!. Qed.

Lemma update_metrics_counts_witness :
  ∃ v' ps,
    update_metrics sample_geometry sample_ops ([det_2], [[]]) sample_batch
      (sample_validator false) = Some (v', ps)
    ∧ seen v' = 1 ∧ length ps = 1 ∧ args v' = sample_args false.
Proof.
  destruct sample_update_metrics as [[v' ps] E]. exists v', ps. split; [exact E|].
  destruct (update_metrics_counts sample_geometry sample_ops _ _ _ _ _ E)
    as (Hs & Hl & Ha & _).
  split_and!; [exact Hs|exact Hl|exact Ha].
Defined.

Lemma update_metrics_append_only_witness :
  ∃ v' ps,
    update_metrics sample_geometry sample_ops ([det_2], [[]]) sample_batch
      (sample_validator false) = Some (v', ps)
    ∧ stats_prefix (stats (sample_validator false)) (stats v')
    ∧ length (conf (stats v')) ≤ 1.
Proof.
  destruct sample_update_metrics as [[v' ps] E]. exists v', ps. split; [exact E|].
  destruct (update_metrics_append_only sample_geometry sample_ops _ _ _ _ _ E)
    as (Hs & _ & _ & _ & Hl).
  split; [exact Hs|exact Hl].
Defined.

Lemma update_metrics_keeps_alignment_witness :
  aligned (stats (sample_validator false))
  ∧ ∃ v' ps,
      update_metrics sample_geometry sample_ops ([det_2], [[]]) sample_batch
        (sample_validator false) = Some (v', ps)
      ∧ aligned (stats v').
Proof.
  split; [exact sample_aligned|].
  destruct sample_update_metrics as [[v' ps] E]. exists v', ps. split; [exact E|].
  exact (update_metrics_keeps_alignment sample_geometry sample_ops _ _ _ _ _ sample_aligned E).
Defined.

Lemma update_metrics_quiet_witness :
  ∃ v' ps,
    update_metrics sample_geometry sample_ops ([det_2], [[]]) sample_batch
      (sample_validator false) = Some (v', ps)
    ∧ jdict v' = [] ∧ events v' = [].
Proof.
  destruct sample_update_metrics as [[v' ps] E]. exists v', ps. split; [exact E|].
  destruct (update_metrics_quiet sample_geometry sample_ops _ _ _ _ _ E) as [Hj He].
  split; [exact (Hj eq_refl)|exact (He eq_refl eq_refl)].
Defined.

Lemma plot_buffer_bounded_witness :
  ∃ v' ps,
    update_metrics sample_geometry sample_ops ([det_2], [[]]) sample_batch
      (sample_validator false) = Some (v', ps)
    ∧ length (plot_masks v') ≤ 1 ∧ plot_masks v' = [].
Proof.
  destruct sample_update_metrics as [[v' ps] E]. exists v', ps. split; [exact E|].
  destruct (plot_buffer_bounded sample_geometry sample_ops _ _ _ _ _ E) as (Hl & _ & Hp).
  split; [exact Hl|exact (Hp (or_introl eq_refl))].
Defined.

Lemma update_metrics_predictions_witness :
  ∃ v' ps,
    update_metrics sample_geometry sample_ops ([det_2], [[]]) sample_batch
      (sample_validator true) = Some (v', ps)
    ∧ ps = [zero_class det_2].
Proof.
  destruct sample_update_metrics_single_cls as [[v' ps] E]. exists v', ps.
  split; [exact E|].
  destruct (update_metrics_predictions sample_geometry sample_ops _ _ _ _ _ E)
    as (_ & Hp & _).
  exact (Hp eq_refl).
Defined.

Lemma update_metrics_after_init_witness :
  save_json (args (id (sample_validator false))) = false
  ∧ save_txt (args (id (sample_validator false))) = false
  ∧ (∀ i, i < 1 → batch_ok true i sample_batch)
  ∧ Forall (Forall (λ r : Row, 6 ≤ length r)) [det_2]
  ∧ ∃ v' ps,
      update_metrics sample_geometry sample_ops ([det_2], [[]]) sample_batch
        (init_metrics id (sample_validator false)) = Some (v', ps)
      ∧ aligned (stats v')
      ∧ seen v' = 1.
Proof.
  assert (∀ i, i < 1 → batch_ok true i sample_batch) as Hb.
  { intros i Hi. assert (i = 0) as -> by lia. exact sample_batch_ok. }
  assert (Forall (Forall (λ r : Row, 6 ≤ length r)) [det_2]) as Hd.
  { constructor; [exact det_2_arity|constructor]. }
  split_and!; [reflexivity|reflexivity|exact Hb|exact Hd|].
  destruct (update_metrics_after_init sample_geometry sample_ops id (sample_validator false)
              ([det_2], [[]]) sample_batch eq_refl eq_refl Hb Hd)
    as (v' & ps & E & _ & _ & Ha & _ & Hs).
  exists v', ps. split_and!; [exact E|exact Ha|exact Hs].
Defined.

Lemma no_decoder_bound_witness :
  process (set_process None (sample_validator false)) = None
  ∧ update_sample sample_geometry sample_ops sample_batch
      (set_process None (sample_validator false)) 0 det_2 [] = None.
Proof.
  split; [reflexivity|].
  destruct (no_decoder_bound sample_geometry sample_ops sample_batch
              (set_process None (sample_validator false)) 0 [] eq_refl) as [H _].
  by apply H.
Defined.

Lemma short_rows_raise_witness :
  Exists (λ r : Row, length r < 6) [[1; 2; 3]%Q]
  ∧ update_sample sample_geometry sample_ops sample_batch (sample_validator false) 0
      [[1; 2; 3]%Q] [] = None.
Proof.
  assert (Exists (λ r : Row, length r < 6) [[1; 2; 3]%Q]) as H by (constructor; cbn; lia).
  split; [exact H|].
  exact (short_rows_raise sample_geometry sample_ops sample_batch (sample_validator false) 0
           [[1; 2; 3]%Q] [] H).
Defined.

Lemma _prepare_batch_counts_witness :
  ∃ pb,
    _prepare_batch sample_ops (sample_validator false) 0 sample_batch = Some pb
    ∧ pb_cls pb = [3; 1]%Q
    ∧ length (pb_bbox pb) = length (pb_cls pb)
    ∧ planes (pb_masks pb) = [raster_2inst].
Proof.
  assert (is_Some (_prepare_batch sample_ops (sample_validator false) 0 sample_batch))
    as [pb E] by (vm_compute; eauto).
  exists pb. split; [exact E|].
  destruct (_prepare_batch_counts sample_ops _ _ _ _ E)
    as (Hc & _ & Hl & _ & _ & _ & _ & (raster & Hr & Hp)).
  split_and!; [exact Hc|exact Hl|].
  rewrite Hp. cbn in Hr. by injection Hr as <-.
Defined.

Lemma _prepare_pred_ignores_class_witness :
  Forall (λ r : Row, 7 ≤ length r) det_2
  ∧ ∀ pb,
      _prepare_pred sample_ops (sample_validator true) (zero_class det_2) pb []
      = (λ x : Tensor2 * Masks, (zero_class x.1, x.2))
          <$> _prepare_pred sample_ops (sample_validator true) det_2 pb [].
Proof.
  assert (Forall (λ r : Row, 7 ≤ length r) det_2) as H by (repeat constructor; cbn; lia).
  split; [exact H|]. intros pb.
  exact (_prepare_pred_ignores_class sample_ops (sample_validator true) det_2 pb [] H).
Defined.

Lemma _prepare_pred_six_columns_witness :
  Forall (λ r : Row, length r = 6) [[1; 2; 3; 4; 1 # 2; 9]%Q]
  ∧ process (sample_validator false) = Some ProcessMaskObbSeg
  ∧ ∀ pb, ∃ predn boxes,
      Forall2 box_of_6_columns [[1; 2; 3; 4; 1 # 2; 9]%Q] boxes
      ∧ _prepare_pred sample_ops (sample_validator false) [[1; 2; 3; 4; 1 # 2; 9]%Q] pb []
        = Some (predn, decoder sample_ops ProcessMaskObbSeg [] [[]] boxes (pb_imgsz pb)).
Proof.
  assert (Forall (λ r : Row, length r = 6) [[1; 2; 3; 4; 1 # 2; 9]%Q]) as H
    by by repeat constructor.
  split_and!; [exact H|reflexivity|]. intros pb.
  exact (_prepare_pred_six_columns sample_ops (sample_validator false)
           [[1; 2; 3; 4; 1 # 2; 9]%Q] pb [] ProcessMaskObbSeg H eq_refl).
Defined.

(** ** Which samples leave a record *)

Section Records.

Context (G : Geometry) (O : Ops).

Lemma _prepare_batch_cls (v : Validator) (si : nat) (batch : Batch) (pb : PBatch) :
  _prepare_batch O v si batch = Some pb → pb_cls pb = labels si batch.
Proof.
  intros H. unfold _prepare_batch, bool_index in H. cbv zeta in H. unfold labels.
  set (idx := sample_mask si batch) in *.
  destruct (decide (length idx = length (cls batch))); [|done].
  cbn [mbind option_bind] in H.
  destruct (decide (length idx = length (bboxes batch))); [|done].
  cbn [mbind option_bind] in H.
  destruct (ori_shape batch !! si); [|done]. cbn [mbind option_bind] in H.
  destruct (ratio_pad batch !! si); [|done]. cbn [mbind option_bind] in H.
  destruct (if decide (length (masked idx (cls batch)) = 0) then _ else _); [|done].
  cbn [mbind option_bind] in H.
  destruct (if overlap_mask (args v) then _ else _); [|done].
  cbn in H. by simplify_eq.
Qed.

Lemma update_sample_record (batch : Batch) (v v' : Validator) (si : nat)
    (pred pred' : Tensor2) (proto : Proto) :
  update_sample G O batch v si pred proto = Some (v', pred') →
  target_cls (stats v')
  = target_cls (stats v) ++ (if recorded batch si pred then [labels si batch] else [])
  ∧ length (conf (stats v'))
    = length (conf (stats v)) + (if recorded batch si pred then 1 else 0).
Proof.
  intros H. unfold update_sample in H. unfold recorded.
  destruct (_prepare_batch _ _ _ _) as [pb|] eqn:Hpb; [|done].
  apply _prepare_batch_cls in Hpb. rewrite <- Hpb. clear Hpb.
  cbn [mbind option_bind] in H.
  destruct (decide (length pred = 0)) as [Hz|Hnz].
  - rewrite (bool_decide_eq_true_2 _ Hz).
    destruct (decide (length (pb_cls pb) = 0)) as [Hl|Hl]; simplify_eq.
    + rewrite (bool_decide_eq_true_2 _ Hl). cbn. rewrite app_nil_r. split; [done|lia].
    + rewrite (bool_decide_eq_false_2 _ Hl).
      destruct v as [[sj stx scf scl om pl] thr coco bi keys pr pms st sn jd ev].
      cbn. destruct pl; cbn; rewrite length_app; cbn; split; [done|lia|done|lia].
  - rewrite (bool_decide_eq_false_2 _ Hnz).
    destruct (if single_cls _ then _ else _) as [pred1|]; [|done].
    cbn [mbind option_bind] in H.
    destruct (_prepare_pred _ _ _ _ _) as [[predn pm]|]; [|done].
    cbn [mbind option_bind] in H.
    destruct (col 4 predn) as [conf|]; [|done]. cbn [mbind option_bind] in H.
    destruct (col 5 predn) as [pcls|]; [|done]. cbn [mbind option_bind] in H.
    destruct (if decide _ then _ else _) as [[tp tpm]|]; [|done].
    cbn [mbind option_bind] in H.
    destruct v as [[sj stx scf scl om pl] thr coco bi keys pr pms st sn jd ev].
    cbn in H. cbn.
    match type of H with
    | context [@bool_decide ?P ?i] => destruct (@bool_decide P i)
    end;
      destruct pl, sj, stx; cbn in H;
      destruct (im_file batch !! si), (ratio_pad batch !! si); cbn in H;
      simplify_eq; cbn; rewrite length_app; cbn; (split; [done|lia]).
Qed.

Lemma update_loop_records (batch : Batch) (l : list (Tensor2 * Proto)) (v v' : Validator)
    (si : nat) (ps : list Tensor2) :
  update_loop G O batch v si l = Some (v', ps) →
  target_cls (stats v') = target_cls (stats v) ++ recorded_labels batch si l.*1
  ∧ length (conf (stats v'))
    = length (conf (stats v)) + length (recorded_labels batch si l.*1).
Proof.
  revert v si ps. induction l as [|[pred proto] l IH]; intros v si ps H.
  - cbn in H. simplify_eq. cbn. rewrite app_nil_r. split; [done|lia].
  - cbn [update_loop] in H.
    destruct (update_sample _ _ _ _ _ _ _) as [[v1 pred1]|] eqn:H1; [|done].
    cbn [mbind option_bind] in H.
    destruct (update_loop _ _ _ _ _ _) as [[v2 ps2]|] eqn:H2; [|done].
    cbn in H. simplify_eq.
    apply update_sample_record in H1 as [Ht Hc]. apply IH in H2 as [Ht' Hc'].
    cbn [fmap list_fmap fst recorded_labels]. rewrite Ht', Ht, Hc', Hc, length_app.
    split; [by rewrite <- app_assoc|]. destruct (recorded batch si pred); cbn; lia.
Qed.

(** X18.  A sample leaves a record in the statistics exactly when it has
    predictions or labels, and the record carries the labels of the sample:
    over a batch the ground-truth classes grow by the labels of those
    samples, in order, and the confidences by one entry for each of them. *)
Theorem update_metrics_records (preds : list Tensor2 * list Proto) (batch : Batch)
    (v v' : Validator) (ps : list Tensor2) :
  update_metrics G O preds batch v = Some (v', ps) →
  target_cls (stats v')
  = target_cls (stats v) ++ recorded_labels batch 0 (take (length preds.2) preds.1)
  ∧ length (conf (stats v'))
    = length (conf (stats v))
      + length (recorded_labels batch 0 (take (length preds.2) preds.1)).
Proof.
  intros H. unfold update_metrics in H. apply update_loop_records in H.
  by rewrite zip_fst_take in H.
Qed.

End Records.

Lemma update_metrics_records_witness :
  ∃ v' ps,
    update_metrics sample_geometry sample_ops ([det_2], [[]]) sample_batch
      (sample_validator false) = Some (v', ps)
    ∧ target_cls (stats v') = [[3; 1]%Q]
    ∧ length (conf (stats v')) = 1.
Proof.
  destruct sample_update_metrics as [[v' ps] E]. exists v', ps. split; [exact E|].
  destruct (update_metrics_records sample_geometry sample_ops _ _ _ _ _ E) as [Ht Hc].
  split; [exact Ht|exact Hc].
Defined.
